(** * StripPython: the comment and docstring stripper of [strip.py]

    A shallow embedding of [stripFile] (strip.py, lines 39-127) and of the
    call that the command line makes to it (line 198), followed by the
    properties of the rewriter stated in the specification.

    Modelling decisions.
    - The token stream that [tokenize.generate_tokens] yields is a finite
      list of five-field tokens; an error raised by the tokenizer itself in
      the middle of the stream is outside the model.
    - The destination file is the string of everything written to it so
      far; [destination.write(s)] appends [s].  The error stream is kept the
      same way.
    - A Python exception ends the loop: the outcome records the exception
      and the state (with the partial output) at the point of the raise. *)

From Stdlib Require Import ZArith Bool List Ascii String Lia.
Import ListNotations.

Open Scope Z_scope.

(* ------------------------------------------------------------------ *)
(** ** Python strings *)

Module PyStr.

Definition tab : string := String (ascii_of_nat 9) EmptyString.
Definition newline : string := String (ascii_of_nat 10) EmptyString.
Definition space : string := String (ascii_of_nat 32) EmptyString.

(** A literal in double quotes, as its source text: [quoted "doc"] is the
    five characters of the Python token ["doc"]. *)
Definition quoted (s : string) : string :=
  String (ascii_of_nat 34) (append s (String (ascii_of_nat 34) EmptyString)).

Fixpoint repeat (s : string) (n : nat) : string :=
  match n with
  | O => EmptyString
  | S n' => append s (repeat s n')
  end.

(** Python's [s * n]: the empty string when [n <= 0]. *)
Definition mul (s : string) (n : Z) : string := repeat s (Z.to_nat n).


End PyStr.

(* ------------------------------------------------------------------ *)
(** ** Tokens *)

(** The token kinds of Python's [token] module that [generate_tokens]
    yields.  [stripFile] tells apart STRING, COMMENT, INDENT, DEDENT,
    NEWLINE, NL, NAME and NUMBER; every other kind takes the final [else]
    branch. *)
Inductive TokenType : Set :=
| ENDMARKER | NAME | NUMBER | STRING | NEWLINE | INDENT | DEDENT
| OP | COMMENT | NL | ERRORTOKEN.

Module TokenType.

Definition eqb (a b : TokenType) : bool :=
  match a, b with
  | ENDMARKER, ENDMARKER | NAME, NAME | NUMBER, NUMBER | STRING, STRING
  | NEWLINE, NEWLINE | INDENT, INDENT | DEDENT, DEDENT | OP, OP
  | COMMENT, COMMENT | NL, NL | ERRORTOKEN, ERRORTOKEN => true
  | _, _ => false
  end.

End TokenType.

Declare Scope token_scope.
Delimit Scope token_scope with tok.
Infix "==" := TokenType.eqb (at level 70, no associativity) : token_scope.
Infix "!=" := (fun a b => negb (TokenType.eqb a b))
  (at level 70, no associativity) : token_scope.

(** The five-tuple the tokenizer yields:
    [tokenType, tokenText, (startLine, startCol), (endLine, endCol), lineText]. *)
Record Token : Set := mkToken {
  tokenType : TokenType;
  tokenText : string;
  tokenStart : Z * Z;
  tokenEnd : Z * Z;
  lineText : string
}.

(** A token with its kind and text only; the positions and the line text
    are read by nothing but the debug trace. *)
Definition tok (ty : TokenType) (text : string) : Token :=
  mkToken ty text (0, 0) (0, 0) EmptyString.

(* ------------------------------------------------------------------ *)
(** ** The rewriter state *)

Inductive Exception : Set :=
| NameError (name : string).

(** The local variables of [stripFile] (lines 50-53) and the two streams it
    can write to. *)
Record State : Set := mkState {
  previousTokenType : TokenType;
  indentLevel : Z;
  didNewLine : bool;
  needNewLine : bool;
  destination : string;
  stderr : string
}.

Inductive Outcome : Set :=
| Normal (st : State)
| Raised (e : Exception) (st : State).

Module St.

Definition setPrevious (st : State) (ty : TokenType) : State :=
  mkState ty (indentLevel st) (didNewLine st) (needNewLine st)
          (destination st) (stderr st).

Definition setIndentLevel (st : State) (n : Z) : State :=
  mkState (previousTokenType st) n (didNewLine st) (needNewLine st)
          (destination st) (stderr st).

Definition setDidNewLine (st : State) (b : bool) : State :=
  mkState (previousTokenType st) (indentLevel st) b (needNewLine st)
          (destination st) (stderr st).

Definition setNeedNewLine (st : State) (b : bool) : State :=
  mkState (previousTokenType st) (indentLevel st) (didNewLine st) b
          (destination st) (stderr st).

(** [destination.write( s )] *)
Definition write (st : State) (s : string) : State :=
  mkState (previousTokenType st) (indentLevel st) (didNewLine st)
          (needNewLine st) (append (destination st) s) (stderr st).

End St.

(* ------------------------------------------------------------------ *)
(** ** [stripFile] *)

Section StripFile.

Local Open Scope token_scope.

(** Line 54: ["\t" if indent == 0 else " " * indent]. *)
Definition indentCharOf (indent : Z) : string :=
  if indent =? 0 then PyStr.tab else PyStr.mul PyStr.space indent.

(** Lines 74-75, the condition under which a token is processed at all:
    [(tokenType != STRING or previousTokenType != INDENT)
     and tokenType != COMMENT]. *)
Definition keepToken (previousTokenType tokenType : TokenType) : bool :=
  ((tokenType != STRING) || (previousTokenType != INDENT))
  && (tokenType != COMMENT).

(** Lines 120-121, one side of the spacing test. *)
Definition isNameOrNumber (ty : TokenType) : bool :=
  (ty == NAME) || (ty == NUMBER).

(** Lines 107-115: the pending line break of a content token. *)
Definition startLine (indentChar : string) (st : State) : State :=
  if needNewLine st then
    let st := St.write st PyStr.newline in
    let st := St.write st (PyStr.mul indentChar (indentLevel st)) in
    let st := St.setDidNewLine st true in
    St.setNeedNewLine st false
  else
    St.setDidNewLine st false.

(** Lines 120-123: the space between two names or numbers. *)
Definition separate (st : State) (t : Token) : State :=
  if isNameOrNumber (tokenType t) && isNameOrNumber (previousTokenType st)
  then St.write st PyStr.space
  else st.

(** The body of the [for] loop, lines 60-127.

    - Lines 60-69: with [debug] set, the arguments of the trace are
      evaluated first and the first of them, [indentCount], is bound
      nowhere in the file: the statement raises [NameError] before
      anything is printed.
    - Line 87: [mod] is bound nowhere in the file either, so the write
      raises [NameError]; [indentLevel] has been incremented by then. *)
Definition processToken (indentChar : string) (debug : bool)
    (st : State) (t : Token) : Outcome :=
  if debug then Raised (NameError "indentCount") st
  else if keepToken (previousTokenType st) (tokenType t) then
    if tokenType t == INDENT then
      let st := St.setIndentLevel st (indentLevel st + 1) in
      if didNewLine st then Raised (NameError "mod") st
      else Normal (St.setPrevious (St.setNeedNewLine st true) (tokenType t))
    else if tokenType t == DEDENT then
      let st := St.setIndentLevel st (indentLevel st - 1) in
      let st := if didNewLine st then St.setNeedNewLine st true else st in
      Normal (St.setPrevious st (tokenType t))
    else if (tokenType t == NEWLINE) || (tokenType t == NL) then
      Normal (St.setPrevious (St.setNeedNewLine st true) (tokenType t))
    else
      let st := startLine indentChar st in
      let st := separate st t in
      let st := St.write st (tokenText t) in
      Normal (St.setPrevious st (tokenType t))
  else Normal st.

(** Line 58: the loop over the token stream, from any state. *)
Fixpoint stripLoop (indentChar : string) (debug : bool)
    (st : State) (tokens : list Token) : Outcome :=
  match tokens with
  | [] => Normal st
  | t :: rest =>
      match processToken indentChar debug st t with
      | Normal st' => stripLoop indentChar debug st' rest
      | Raised e st' => Raised e st'
      end
  end.

(** Lines 50-53, over a sink that holds [dest] already. *)
Definition initialState (dest : string) : State :=
  mkState INDENT 0 false false dest EmptyString.

(** [stripFile( source, destination, indent, debug )], the source given
    by its token stream. *)
Definition stripFile (source : list Token) (dest : string)
    (indent : Z) (debug : bool) : Outcome :=
  stripLoop (indentCharOf indent) debug (initialState dest) source.

End StripFile.

(** What the destination holds when [stripFile] ends, normally or not. *)
Definition written (o : Outcome) : string :=
  match o with
  | Normal st => destination st
  | Raised _ st => destination st
  end.

Definition traced (o : Outcome) : string :=
  match o with
  | Normal st => stderr st
  | Raised _ st => stderr st
  end.

(* ------------------------------------------------------------------ *)
(** ** The command line (lines 133-203) *)

(** The namespace that [parser.parse_args()] returns. *)
Record Args : Set := mkArgs {
  output : option string;
  indent : Z;
  dump : bool;
  files : list string
}.

(** Line 198, the only call of [stripFile]:
    [stripFile( sourceFile, destinationFile, args.indent )].  The fourth
    parameter is not passed and takes its default, [False]. *)
Definition mainStripFile (args : Args) (sourceFile : list Token)
    (destinationFile : string) : Outcome :=
  stripFile sourceFile destinationFile (indent args) false.

(* ------------------------------------------------------------------ *)
(** ** Vocabulary of the properties *)

Section Vocabulary.

Local Open Scope token_scope.

(** A token that reaches the final [else] branch (line 106): it is kept
    by lines 74-75 and is none of INDENT, DEDENT, NEWLINE, NL. *)
Definition isContent (previousTokenType tokenType : TokenType) : bool :=
  keepToken previousTokenType tokenType
  && (tokenType != INDENT) && (tokenType != DEDENT)
  && (tokenType != NEWLINE) && (tokenType != NL).

(** NEWLINE or NL, the test of line 102. *)
Definition isLineEnd (t : Token) : bool :=
  (tokenType t == NEWLINE) || (tokenType t == NL).

(** What a content token writes for the pending line break
    (lines 107-110). *)
Definition pendingBreak (indentChar : string) (st : State) : string :=
  if needNewLine st
  then append PyStr.newline (PyStr.mul indentChar (indentLevel st))
  else EmptyString.

(** What lines 120-123 write before the text of a content token. *)
Definition separator (previousTokenType tokenType : TokenType) : string :=
  if isNameOrNumber tokenType && isNameOrNumber previousTokenType
  then PyStr.space else EmptyString.

(** The tokens of a stream that lines 74-75 let through, the first of
    them met with [previousTokenType = prev]. *)
Fixpoint survivors (prev : TokenType) (tokens : list Token) : list Token :=
  match tokens with
  | [] => []
  | t :: rest =>
      if keepToken prev (tokenType t)
      then t :: survivors (tokenType t) rest
      else survivors prev rest
  end.

(** No token of the stream reaches the final [else] branch. *)
Fixpoint noContent (prev : TokenType) (tokens : list Token) : bool :=
  match tokens with
  | [] => true
  | t :: rest =>
      if isContent prev (tokenType t) then false
      else noContent
             (if keepToken prev (tokenType t) then tokenType t else prev)
             rest
  end.

(** While a line break is pending, the previous kind is neither NAME nor
    NUMBER. *)
Definition breakPendingInv (st : State) : Prop :=
  needNewLine st = true -> isNameOrNumber (previousTokenType st) = false.


End Vocabulary.

(* ------------------------------------------------------------------ *)
(** ** Token streams used as examples *)

Module Streams.

Local Open Scope string_scope.

Definition nl : Token := tok NEWLINE PyStr.newline.

(** The tokens of the three lines [a], [x], and [y] indented by four
    spaces. *)
Definition indentAfterOneTokenLine : list Token :=
  [ tok NAME "a"; nl;
    tok NAME "x"; nl;
    tok INDENT "    "; tok NAME "y"; nl;
    tok DEDENT ""; tok ENDMARKER "" ].

(** The tokens of a module that opens with a comment line, then its
    docstring, then [x = 1]. *)
Definition commentThenDocstring : list Token :=
  [ tok COMMENT "# c"; tok NL PyStr.newline;
    tok STRING (PyStr.quoted "doc"); nl;
    tok NAME "x"; tok OP "="; tok NUMBER "1"; nl;
    tok ENDMARKER "" ].

(** The same module with a blank line in place of the comment line. *)
Definition blankLineThenDocstring : list Token :=
  [ tok NL PyStr.newline;
    tok STRING (PyStr.quoted "doc"); nl;
    tok NAME "x"; tok OP "="; tok NUMBER "1"; nl;
    tok ENDMARKER "" ].

(** The same module with the docstring on its first line. *)
Definition docstringFirst : list Token :=
  [ tok STRING (PyStr.quoted "doc"); nl;
    tok NAME "x"; tok OP "="; tok NUMBER "1"; nl;
    tok ENDMARKER "" ].

(** [def f():] whose suite is the three statements ["a"], ["b"], [x]. *)
Definition twoStrings : list Token :=
  [ tok NAME "def"; tok NAME "f"; tok OP "("; tok OP ")"; tok OP ":"; nl;
    tok INDENT "    "; tok STRING (PyStr.quoted "a"); nl;
    tok STRING (PyStr.quoted "b"); nl;
    tok NAME "x"; nl;
    tok DEDENT ""; tok ENDMARKER "" ].

(** What the first pass writes for [twoStrings] with tabs. *)
Definition twoStringsPass1 : string :=
  "def f():" ++ PyStr.newline
  ++ PyStr.tab ++ PyStr.quoted "b" ++ PyStr.newline
  ++ PyStr.tab ++ "x" ++ PyStr.newline.

(** The tokens of the text [twoStringsPass1]: the suite now opens with
    ["b"]. *)
Definition twoStringsRetokenized : list Token :=
  [ tok NAME "def"; tok NAME "f"; tok OP "("; tok OP ")"; tok OP ":"; nl;
    tok INDENT PyStr.tab; tok STRING (PyStr.quoted "b"); nl;
    tok NAME "x"; nl;
    tok DEDENT ""; tok ENDMARKER "" ].

(** What the second pass writes. *)
Definition twoStringsPass2 : string :=
  "def f():" ++ PyStr.newline
  ++ PyStr.tab ++ "x" ++ PyStr.newline.

(** [if x:] with the suite [y], followed by the statement ['s']. *)
Definition stringAfterDedent : list Token :=
  [ tok NAME "if"; tok NAME "x"; tok OP ":"; nl;
    tok INDENT "    "; tok NAME "y"; nl;
    tok DEDENT ""; tok STRING "'s'"; nl;
    tok ENDMARKER "" ].

Definition upToDedent : list Token := firstn 8 stringAfterDedent.



End Streams.

(* ------------------------------------------------------------------ *)
(** ** More vocabulary for the rewriter *)

Module Blank.

(** Space, tab and line break: the characters the rewriter writes on its
    own account. *)
Definition isBlank (c : ascii) : bool :=
  Ascii.eqb c (ascii_of_nat 32) || Ascii.eqb c (ascii_of_nat 9)
  || Ascii.eqb c (ascii_of_nat 10).

(** A string without its blanks. *)
Fixpoint squeeze (s : string) : string :=
  match s with
  | EmptyString => EmptyString
  | String c s' => if isBlank c then squeeze s' else String c (squeeze s')
  end.

End Blank.

Section Kinds.

Local Open Scope token_scope.

(** The four kinds with a branch of their own in lines 78-104. *)
Definition isLayoutKind (ty : TokenType) : bool :=
  (ty == INDENT) || (ty == DEDENT) || (ty == NEWLINE) || (ty == NL).

(** The tokens of a stream that reach the final [else] branch, in order,
    the first token met with [previousTokenType = prev]. *)
Fixpoint contentTokens (prev : TokenType) (tokens : list Token)
    : list Token :=
  match tokens with
  | [] => []
  | t :: rest =>
      if isContent prev (tokenType t)
      then t :: contentTokens (tokenType t) rest
      else contentTokens
             (if keepToken prev (tokenType t) then tokenType t else prev)
             rest
  end.

(** The texts of a list of tokens, one after the other. *)
Fixpoint textsOf (tokens : list Token) : string :=
  match tokens with
  | [] => EmptyString
  | t :: rest => append (tokenText t) (textsOf rest)
  end.

(** A token that leaves a line break pending when none has been written
    yet: NEWLINE, NL or INDENT. *)
Definition schedulesBreak (t : Token) : bool :=
  (tokenType t == NEWLINE) || (tokenType t == NL) || (tokenType t == INDENT).

(** A condition on the kinds of a stream alone: every INDENT comes after a
    content token that directly followed another content token (skipped
    tokens apart), or before any content token.  [lineStart] tells
    whether the last content token followed a layout token. *)
Fixpoint headersOk (prev : TokenType) (lineStart : bool)
    (tokens : list Token) : bool :=
  match tokens with
  | [] => true
  | t :: rest =>
      if keepToken prev (tokenType t) then
        if tokenType t == INDENT
        then negb lineStart && headersOk INDENT lineStart rest
        else if isLayoutKind (tokenType t)
        then headersOk (tokenType t) lineStart rest
        else headersOk (tokenType t) (isLayoutKind prev) rest
      else headersOk prev lineStart rest
  end.

(** An outcome moved to a destination that holds [dest] already. *)
Definition onSink (dest : string) (o : Outcome) : Outcome :=
  match o with
  | Normal st => Normal (mkState (previousTokenType st) (indentLevel st)
                           (didNewLine st) (needNewLine st)
                           (append dest (destination st)) (stderr st))
  | Raised e st => Raised e (mkState (previousTokenType st) (indentLevel st)
                               (didNewLine st) (needNewLine st)
                               (append dest (destination st)) (stderr st))
  end.

End Kinds.

(* ------------------------------------------------------------------ *)
(** ** The destination path (lines 185-191) *)

Module Path.

Local Open Scope string_scope.

(** The last ['.'] of a string: what is before it and what is after it. *)
Fixpoint rsplitDot (s : string) : option (string * string) :=
  match s with
  | EmptyString => None
  | String c s' =>
      match rsplitDot s' with
      | Some (h, t) => Some (String c h, t)
      | None => if Ascii.eqb c "." then Some (EmptyString, s') else None
      end
  end.

(** Python's [s.rpartition('.')]: head, separator and tail at the last
    ['.'], or two empty strings and [s] when there is none. *)
Definition rpartition (s : string) : string * string * string :=
  match rsplitDot s with
  | Some (h, t) => (h, ".", t)
  | None => ("", "", s)
  end.

(** Lines 186-191. *)
Definition destinationPathOf (sourcePath : string) : string :=
  let parts := rpartition sourcePath in
  match fst (fst parts) with
  | EmptyString => sourcePath ++ "-strip"
  | _ => fst (fst parts) ++ "-strip" ++ snd (fst parts) ++ snd parts
  end.

(** No ['.'] in a string. *)
Fixpoint dotless (s : string) : bool :=
  match s with
  | EmptyString => true
  | String c s' => negb (Ascii.eqb c ".") && dotless s'
  end.

End Path.

(* ------------------------------------------------------------------ *)
(** ** [stripFile] on a closed destination *)

(** What the main code can end with: an exception of [stripFile], a
    missing input file, or a write to a closed file. *)
Inductive MainError : Set :=
| StripError (e : Exception)
| FileNotFoundError (path : string)
| ValueError.

Inductive ClosedOutcome : Set :=
| ClosedNormal (st : State)
| ClosedRaised (e : MainError) (st : State).

Section ClosedDestination.

Local Open Scope token_scope.

(** The body of the loop, lines 74-127, when [destination] is a closed
    file: every [destination.write] raises [ValueError].  In the final
    branch the first write is that of line 108 when a line break is
    pending; otherwise [didNewLine] is cleared first (line 115) and the
    write of line 123 or of line 125 raises. *)
Definition processTokenClosed (st : State) (t : Token) : ClosedOutcome :=
  if keepToken (previousTokenType st) (tokenType t) then
    if tokenType t == INDENT then
      let st := St.setIndentLevel st (indentLevel st + 1) in
      if didNewLine st then ClosedRaised (StripError (NameError "mod")) st
      else ClosedNormal
             (St.setPrevious (St.setNeedNewLine st true) (tokenType t))
    else if tokenType t == DEDENT then
      let st := St.setIndentLevel st (indentLevel st - 1) in
      let st := if didNewLine st then St.setNeedNewLine st true else st in
      ClosedNormal (St.setPrevious st (tokenType t))
    else if (tokenType t == NEWLINE) || (tokenType t == NL) then
      ClosedNormal (St.setPrevious (St.setNeedNewLine st true) (tokenType t))
    else
      if needNewLine st then ClosedRaised ValueError st
      else ClosedRaised ValueError (St.setDidNewLine st false)
  else ClosedNormal st.

Fixpoint stripLoopClosed (st : State) (tokens : list Token)
    : ClosedOutcome :=
  match tokens with
  | [] => ClosedNormal st
  | t :: rest =>
      match processTokenClosed st t with
      | ClosedNormal st' => stripLoopClosed st' rest
      | ClosedRaised e st' => ClosedRaised e st'
      end
  end.

(** [stripFile( source, destination, indent )] with [destination] closed;
    [dest] is what the file holds, and nothing is added to it. *)
Definition stripFileClosed (source : list Token) (dest : string)
    : ClosedOutcome :=
  stripLoopClosed (initialState dest) source.

End ClosedDestination.

(* ------------------------------------------------------------------ *)
(** ** The main code (lines 170-203) *)

Module Main.

(** The files written so far, the last written first, and the standard
    output. *)
Record World : Set := mkWorld {
  fileContents : list (string * string);
  stdout : string
}.

Fixpoint lookup (path : string) (fs : list (string * string))
    : option string :=
  match fs with
  | [] => None
  | (p, c) :: rest => if String.eqb p path then Some c else lookup path rest
  end.

(** The file at [path] now holds [content]. *)
Definition setFile (w : World) (path content : string) : World :=
  mkWorld ((path, content) :: fileContents w) (stdout w).

Definition setStdout (w : World) (content : string) : World :=
  mkWorld (fileContents w) content.

(** How the run ended and what it left behind. *)
Record Result : Set := mkResult {
  world : World;
  error : option MainError
}.

Section Loop.

(** The parsed command line, and the token stream of each input file that
    exists ([open( sourcePath, "r" )] raises on the others). *)
Variable args : Args.
Variable sourceOf : string -> option (list Token).

(** Lines 185-196 and 198 with no [-o]: a destination file per input,
    opened with ["w"], so it is empty when [stripFile] starts. *)
Definition convertToOwnFile (w : World) (sourcePath : string)
    (tokens : list Token) : World * option Exception :=
  let destinationPath := Path.destinationPathOf sourcePath in
  let o := stripFile tokens EmptyString (indent args) false in
  (setFile w destinationPath (written o),
   match o with Normal _ => None | Raised e _ => Some e end).

(** Line 198 with [-o -]: the destination is the standard output. *)
Definition convertToStdout (w : World) (tokens : list Token)
    : World * option Exception :=
  let o := stripFile tokens (stdout w) (indent args) false in
  (setStdout w (written o),
   match o with Normal _ => None | Raised e _ => Some e end).

(** Line 198 with [-o path], the file still open. *)
Definition convertToOutput (w : World) (path : string)
    (tokens : list Token) : World * option Exception :=
  let before := match lookup path (fileContents w) with
                | Some c => c
                | None => EmptyString
                end in
  let o := stripFile tokens before (indent args) false in
  (setFile w path (written o),
   match o with Normal _ => None | Raised e _ => Some e end).

(** The [for] loop of lines 181-203.  [closed] tells whether the file of
    [-o] has been closed by lines 202-203 in an earlier round. *)
Fixpoint convertFiles (closed : bool) (w : World) (paths : list string)
    : Result :=
  match paths with
  | [] => mkResult w None
  | sourcePath :: rest =>
      match sourceOf sourcePath with
      | None => mkResult w (Some (FileNotFoundError sourcePath))
      | Some tokens =>
          match output args with
          | None =>
              match convertToOwnFile w sourcePath tokens with
              | (w', None) => convertFiles closed w' rest
              | (w', Some e) => mkResult w' (Some (StripError e))
              end
          | Some path =>
              if String.eqb path "-" then
                match convertToStdout w tokens with
                | (w', None) => convertFiles closed w' rest
                | (w', Some e) => mkResult w' (Some (StripError e))
                end
              else if closed then
                match stripFileClosed tokens EmptyString with
                | ClosedNormal _ => convertFiles true w rest
                | ClosedRaised e _ => mkResult w (Some e)
                end
              else
                match convertToOutput w path tokens with
                | (w', None) => convertFiles true w' rest
                | (w', Some e) => mkResult w' (Some (StripError e))
                end
          end
      end
  end.

(** Lines 172-179, then the loop: the file of [-o] is opened with ["w"]
    before any input is opened. *)
Definition main (w : World) : Result :=
  let w0 := match output args with
            | None => w
            | Some path =>
                if String.eqb path "-" then w
                else setFile w path EmptyString
            end in
  convertFiles false w0 (files args).

End Loop.

End Main.

(* ------------------------------------------------------------------ *)
(** ** Vocabulary for the main code *)

Section Conversions.

Variable args : Args.
Variable sourceOf : string -> option (list Token).

(** What [stripFile] writes for an input file on an empty destination
    (nothing for a file that does not exist). *)
Definition conversionOf (path : string) : string :=
  match sourceOf path with
  | Some tokens => written (stripFile tokens EmptyString (indent args) false)
  | None => EmptyString
  end.

(** The conversions of several input files, one after the other. *)
Fixpoint conversionsOf (paths : list string) : string :=
  match paths with
  | [] => EmptyString
  | path :: rest => append (conversionOf path) (conversionsOf rest)
  end.

(** The input file exists and [stripFile] ends normally on it. *)
Definition convertsNormally (path : string) : Prop :=
  exists tokens st,
    sourceOf path = Some tokens
    /\ stripFile tokens EmptyString (indent args) false = Normal st.

End Conversions.

(* ------------------------------------------------------------------ *)
(** ** Runs of the main code used as examples *)

Module Runs.

Local Open Scope string_scope.

(** Two input files, [a.py] and [b.py], and no other. *)
Definition sourceOf (path : string) : option (list Token) :=
  if String.eqb path "a.py" then Some Streams.docstringFirst
  else if String.eqb path "b.py" then Some Streams.stringAfterDedent
  else None.

Definition toStdout : Args := mkArgs (Some "-") 0 false ["a.py"; "b.py"].

Definition toOutput : Args :=
  mkArgs (Some "out.py") 0 false ["a.py"; "b.py"].

(** Nothing written yet, except an older [out.py]. *)
Definition before : Main.World := Main.mkWorld [("out.py", "old")] "".

End Runs.

(* ------------------------------------------------------------------ *)
(** ** The previous kind along a stream *)

(** The value of [previousTokenType] after the tokens of a stream have
    been processed normally, from the value [prev]: line 127 for the tokens
    that pass lines 74-75, no change for the others. *)
Fixpoint previousKindAfter (prev : TokenType) (tokens : list Token)
    : TokenType :=
  match tokens with
  | [] => prev
  | t :: rest =>
      previousKindAfter
        (if keepToken prev (tokenType t) then tokenType t else prev) rest
  end.

(** The number of characters of a string that are not blank. *)
Definition squeezedLength (s : string) : nat :=
  String.length (Blank.squeeze s).

(** STRING or COMMENT, the two kinds that lines 74-75 can skip. *)
Definition isStringOrComment (t : Token) : bool :=
  TokenType.eqb (tokenType t) STRING || TokenType.eqb (tokenType t) COMMENT.

(* ------------------------------------------------------------------ *)
(** ** More token streams used as examples *)

Module MoreStreams.

Local Open Scope string_scope.

(** [def f():] whose suite opens with the docstring ["a" "b"], written as
    two adjacent literals, and goes on with [x]. *)
Definition adjacentStrings : list Token :=
  [ tok NAME "def"; tok NAME "f"; tok OP "("; tok OP ")"; tok OP ":";
    Streams.nl;
    tok INDENT "    "; tok STRING (PyStr.quoted "a");
    tok STRING (PyStr.quoted "b"); Streams.nl;
    tok NAME "x"; Streams.nl;
    tok DEDENT ""; tok ENDMARKER "" ].



End MoreStreams.

(* ------------------------------------------------------------------ *)
(** ** [stripFile] with its two collaborators *)

(** What iterating [tokenize.generate_tokens( source.readline )] gives
    (lines 56-58): the tokens it yields, and the exception it raises in
    place of stopping, if any ([TokenError] for an input that ends inside
    a bracket or a string, [IndentationError] for a dedent to no outer
    level, an error of [readline]). *)
Record TokenStream : Set := mkTokenStream {
  yielded : list Token;
  tokenizerRaises : option string
}.

(** The exceptions that can leave [stripFile]: one raised by the body of
    the loop, the one the tokenizer raises, and the [ValueError] of a
    write to a closed file. *)
Inductive RunError : Set :=
| LoopError (e : Exception)
| TokenizerError (name : string)
| WriteError.

Inductive RunOutcome : Set :=
| RunNormal (st : State)
| RunRaised (e : RunError) (st : State).

(** [processTokenClosed] raises [NameError] or [ValueError] only. *)
Definition runErrorOf (e : MainError) : RunError :=
  match e with
  | StripError e' => LoopError e'
  | _ => WriteError
  end.

(** [stripFile( source, destination, indent )] as the main code calls it
    ([debug] is off), on a destination that is open and takes every
    write, or closed.  The tokens are processed in the order yielded; the
    exception of the tokenizer, if any, leaves the [for] statement when the
    next token is asked for, after the last yielded token has been
    processed. *)
Definition stripFileRun (source : TokenStream) (closed : bool)
    (dest : string) (indent : Z) : RunOutcome :=
  let atEnd (st : State) :=
    match tokenizerRaises source with
    | None => RunNormal st
    | Some name => RunRaised (TokenizerError name) st
    end in
  if closed then
    match stripFileClosed (yielded source) dest with
    | ClosedNormal st => atEnd st
    | ClosedRaised e st => RunRaised (runErrorOf e) st
    end
  else
    match stripFile (yielded source) dest indent false with
    | Normal st => atEnd st
    | Raised e st => RunRaised (LoopError e) st
    end.

(** What the destination holds when the run ends. *)
Definition runWritten (o : RunOutcome) : string :=
  match o with
  | RunNormal st => destination st
  | RunRaised _ st => destination st
  end.

(* ------------------------------------------------------------------ *)
(** ** The main code over the files it reads and writes *)

(** Here the inputs are read from the same files the run writes, through
    the tokenizer, and opening a file can fail.  A path names one file;
    [Main.fileContents] holds the text of every file that exists. *)
Module Program.

Inductive Error : Set :=
| StripFileRaised (e : RunError)
| InputNotOpened (path : string)
| OutputNotOpened (path : string).

Record Result : Set := mkResult {
  world : Main.World;
  error : option Error
}.

Definition readFile (w : Main.World) (path : string) : option string :=
  Main.lookup path (Main.fileContents w).

(** The text that reading a file gives. *)
Definition textOf (w : Main.World) (path : string) : string :=
  match readFile w path with
  | Some text => text
  | None => EmptyString
  end.

(** [open( path, "w" )] when it succeeds: the file exists and is empty. *)
Definition truncate (w : Main.World) (path : string) : Main.World :=
  Main.setFile w path EmptyString.

Section Run.

(** The parsed command line; Python's tokenizer, from the text of a file
    to what iterating over it gives; and whether [open( path, "w" )]
    succeeds (it does not when the directory of the path is missing). *)
Variable args : Args.
Variable tokenize : string -> TokenStream.
Variable writable : string -> bool.

(** The [for] loop of lines 181-203.  Line 183 opens the input, which
    must exist; its text is read while [stripFile] runs (line 198), after
    the destination has been opened.  [closed] tells whether the file of
    [-o] has been closed by lines 202-203 in an earlier round. *)
Fixpoint convertFiles (closed : bool) (w : Main.World)
    (paths : list string) : Result :=
  match paths with
  | [] => mkResult w None
  | sourcePath :: rest =>
      match readFile w sourcePath with
      | None => mkResult w (Some (InputNotOpened sourcePath))
      | Some _ =>
          match output args with
          | None =>
              let destinationPath := Path.destinationPathOf sourcePath in
              if writable destinationPath then
                let w1 := truncate w destinationPath in
                let o := stripFileRun (tokenize (textOf w1 sourcePath))
                           false EmptyString (indent args) in
                let w2 := Main.setFile w1 destinationPath (runWritten o) in
                match o with
                | RunNormal _ => convertFiles closed w2 rest
                | RunRaised e _ => mkResult w2 (Some (StripFileRaised e))
                end
              else mkResult w (Some (OutputNotOpened destinationPath))
          | Some path =>
              if String.eqb path "-" then
                let o := stripFileRun (tokenize (textOf w sourcePath))
                           false (Main.stdout w) (indent args) in
                let w1 := Main.setStdout w (runWritten o) in
                match o with
                | RunNormal _ => convertFiles closed w1 rest
                | RunRaised e _ => mkResult w1 (Some (StripFileRaised e))
                end
              else
                let o := stripFileRun (tokenize (textOf w sourcePath))
                           closed (textOf w path) (indent args) in
                let w1 := Main.setFile w path (runWritten o) in
                match o with
                | RunNormal _ => convertFiles true w1 rest
                | RunRaised e _ => mkResult w1 (Some (StripFileRaised e))
                end
          end
      end
  end.

(** Lines 172-179, then the loop. *)
Definition main (w : Main.World) : Result :=
  match output args with
  | None => convertFiles false w (files args)
  | Some path =>
      if String.eqb path "-" then convertFiles false w (files args)
      else if writable path
      then convertFiles false (truncate w path) (files args)
      else mkResult w (Some (OutputNotOpened path))
  end.


End Run.

End Program.

Module ProgramRuns.

Local Open Scope string_scope.

(** A tokenizer that knows two texts: the line [x = 1] and the empty
    text. *)
Definition tokenize (text : string) : TokenStream :=
  if String.eqb text ("x = 1" ++ PyStr.newline)
  then mkTokenStream
         [ tok NAME "x"; tok OP "="; tok NUMBER "1"; Streams.nl;
           tok ENDMARKER "" ] None
  else if String.eqb text ""
  then mkTokenStream [ tok ENDMARKER "" ] None
  else mkTokenStream [] (Some "TokenError").

Definition writable (path : string) : bool := true.

(** The input [a.py] and an older [out.py]. *)
Definition before : Main.World :=
  Main.mkWorld [("a.py", "x = 1" ++ PyStr.newline); ("out.py", "old")] "".

Definition toOutput : Args := mkArgs (Some "out.py") 0 false ["a.py"; "b.py"].



End ProgramRuns.

(* ------------------------------------------------------------------ *)
(** ** Facts about strings *)

Module StrFacts.

Lemma append_nil_r (s : string) : append s EmptyString = s.
Proof.
  induction s as [|a s IH]; simpl; [reflexivity | now rewrite IH].
Qed.

Lemma append_assoc (a b c : string) :
  append (append a b) c = append a (append b c).
Proof.
  induction a as [|x a IH]; simpl; [reflexivity | now rewrite IH].
Qed.





End StrFacts.

(* ------------------------------------------------------------------ *)
(** ** One step of the loop, branch by branch *)

Section Steps.

Variable indentChar : string.

Ltac by_kinds st t :=
  destruct st as [prev lvl did need dst err];
  destruct t as [ty txt ps pe ln];
  unfold processToken, isContent, isLineEnd, keepToken, isNameOrNumber;
  simpl; destruct ty, prev; simpl;
  try discriminate; try reflexivity; try tauto.

(** Lines 74-75 false: the token is skipped and nothing changes. *)
Lemma step_dropped (st : State) (t : Token) :
  keepToken (previousTokenType st) (tokenType t) = false ->
  processToken indentChar false st t = Normal st.
Proof.
  intros H. unfold processToken. rewrite H. reflexivity.
Qed.


(** Lines 106-127. *)
Lemma step_content (st : State) (t : Token) :
  isContent (previousTokenType st) (tokenType t) = true ->
  processToken indentChar false st t
  = Normal (St.setPrevious
              (St.write (separate (startLine indentChar st) t) (tokenText t))
              (tokenType t)).
Proof.
  by_kinds st t.
Qed.

(** Lines 91-100 and 127. *)
Lemma step_dedent (st : State) (t : Token) :
  tokenType t = DEDENT ->
  processToken indentChar false st t
  = Normal (mkState DEDENT (indentLevel st - 1) (didNewLine st)
              (if didNewLine st then true else needNewLine st)
              (destination st) (stderr st)).
Proof.
  destruct st as [prev lvl did need dst err];
  destruct t as [ty txt ps pe ln]; simpl; intros ->.
  unfold processToken, keepToken; simpl.
  destruct did; reflexivity.
Qed.

(** Lines 78-89 and 127. *)
Lemma step_indent (st : State) (t : Token) :
  tokenType t = INDENT ->
  processToken indentChar false st t
  = if didNewLine st
    then Raised (NameError "mod") (St.setIndentLevel st (indentLevel st + 1))
    else Normal (mkState INDENT (indentLevel st + 1) false true
                   (destination st) (stderr st)).
Proof.
  destruct st as [prev lvl did need dst err];
  destruct t as [ty txt ps pe ln]; simpl; intros ->.
  unfold processToken, keepToken; simpl.
  destruct did; reflexivity.
Qed.

(** What a content token appends to the destination. *)
Lemma content_destination (st : State) (t : Token) :
  destination
    (St.write (separate (startLine indentChar st) t) (tokenText t))
  = append (destination st)
      (append (pendingBreak indentChar st)
         (append (separator (previousTokenType st) (tokenType t))
            (tokenText t))).
Proof.
  destruct st as [prev lvl did need dst err].
  unfold separate, startLine, pendingBreak, separator; simpl.
  destruct need; simpl;
    destruct (isNameOrNumber (tokenType t) && isNameOrNumber prev); simpl;
    now rewrite ?StrFacts.append_assoc.
Qed.

(** A content token never fails, and this is what it appends. *)
Lemma step_content_writes (st : State) (t : Token) :
  isContent (previousTokenType st) (tokenType t) = true ->
  exists st',
    processToken indentChar false st t = Normal st'
    /\ previousTokenType st' = tokenType t
    /\ destination st'
       = append (destination st)
           (append (pendingBreak indentChar st)
              (append (separator (previousTokenType st) (tokenType t))
                 (tokenText t))).
Proof.
  intros C. rewrite (step_content st t C).
  eexists. split; [reflexivity|]. split; [reflexivity|].
  apply content_destination.
Qed.

(** A token leaves the kind of the last processed token behind it. *)
Lemma step_previous (st st' : State) (t : Token) :
  processToken indentChar false st t = Normal st' ->
  previousTokenType st'
  = if keepToken (previousTokenType st) (tokenType t)
    then tokenType t else previousTokenType st.
Proof.
  destruct st as [prev lvl did need dst err];
  destruct t as [ty txt ps pe ln].
  unfold processToken, keepToken, startLine, separate; simpl.
  destruct ty, prev, did; simpl; intros H; inversion H; reflexivity.
Qed.

(** The invariant of the pending line break is kept by every step. *)
Lemma step_breakPendingInv (st st' : State) (t : Token) :
  breakPendingInv st ->
  processToken indentChar false st t = Normal st' ->
  breakPendingInv st'.
Proof.
  unfold breakPendingInv.
  destruct st as [prev lvl did need dst err];
  destruct t as [ty txt ps pe ln].
  unfold processToken, keepToken, startLine, separate, isNameOrNumber; simpl.
  intros Inv H.
  destruct ty, prev, did, need; simpl in *;
    inversion H; subst; simpl; intros; auto; discriminate.
Qed.


End Steps.

(* ------------------------------------------------------------------ *)
(** ** The loop *)

Section Loop.

Variable indentChar : string.

Lemma stripLoop_app (debug : bool) (st : State) (pre post : list Token) :
  stripLoop indentChar debug st (pre ++ post)
  = match stripLoop indentChar debug st pre with
    | Normal st' => stripLoop indentChar debug st' post
    | Raised e st' => Raised e st'
    end.
Proof.
  revert st. induction pre as [|t pre IH]; intros st; simpl.
  - reflexivity.
  - destruct (processToken indentChar debug st t); [apply IH | reflexivity].
Qed.

Lemma stripLoop_breakPendingInv (tokens : list Token) :
  forall st st',
    breakPendingInv st ->
    stripLoop indentChar false st tokens = Normal st' ->
    breakPendingInv st'.
Proof.
  induction tokens as [|t tokens IH]; cbn [stripLoop]; intros st st' Inv.
  - intros H. now inversion H; subst.
  - destruct (processToken indentChar false st t) as [st1|e st1] eqn:E;
      [|discriminate].
    intros H. eapply IH; [|exact H]. eapply step_breakPendingInv; eauto.
Qed.



(** The skipped tokens can be taken out of the stream beforehand. *)
Lemma stripLoop_survivors (tokens : list Token) :
  forall st,
    stripLoop indentChar false st (survivors (previousTokenType st) tokens)
    = stripLoop indentChar false st tokens.
Proof.
  induction tokens as [|t tokens IH]; cbn [stripLoop survivors]; intros st;
    [reflexivity|].
  destruct (keepToken (previousTokenType st) (tokenType t)) eqn:K.
  - cbn [stripLoop].
    destruct (processToken indentChar false st t) as [st1|e st1] eqn:E;
      [|reflexivity].
    rewrite <- IH. rewrite (step_previous _ _ _ _ E), K. reflexivity.
  - cbn [stripLoop]. rewrite (step_dropped _ _ _ K). apply IH.
Qed.

Lemma survivors_idem (tokens : list Token) :
  forall prev,
    survivors prev (survivors prev tokens) = survivors prev tokens.
Proof.
  induction tokens as [|t tokens IH]; simpl; intros prev; [reflexivity|].
  destruct (keepToken prev (tokenType t)) eqn:K.
  - simpl. rewrite K, IH. reflexivity.
  - apply IH.
Qed.


(** Before the first content token the previous kind is neither NAME nor
    NUMBER and nothing has been written. *)
Lemma stripLoop_noContent (tokens : list Token) :
  forall st st',
    isNameOrNumber (previousTokenType st) = false ->
    noContent (previousTokenType st) tokens = true ->
    stripLoop indentChar false st tokens = Normal st' ->
    isNameOrNumber (previousTokenType st') = false
    /\ destination st' = destination st.
Proof.
  induction tokens as [|t tokens IH]; cbn [stripLoop noContent];
    intros st st' P N.
  - intros H. inversion H; subst; auto.
  - destruct (isContent (previousTokenType st) (tokenType t)) eqn:C;
      [discriminate|].
    destruct (processToken indentChar false st t) as [st1|e st1] eqn:E;
      [|discriminate].
    intros H.
    pose proof (step_previous _ _ _ _ E) as Hp.
    assert (D : destination st1 = destination st
                /\ isNameOrNumber (previousTokenType st1) = false).
    { clear - E C P.
      destruct st as [prev lvl did need dst err];
      destruct t as [ty txt ps pe ln].
      unfold processToken, isContent, keepToken, isNameOrNumber in *;
        simpl in *.
      destruct ty, prev, did; simpl in *;
        try discriminate; inversion E; subst; simpl; auto. }
    destruct D as [D P1].
    rewrite <- Hp in N.
    destruct (IH _ _ P1 N H) as [P' D'].
    split; [exact P' | congruence].
Qed.

End Loop.

(* ------------------------------------------------------------------ *)
(** ** The error stream *)

Section ErrorStream.

Variable indentChar : string.

Lemma step_stderr (debug : bool) (st : State) (t : Token) :
  traced (processToken indentChar debug st t) = stderr st.
Proof.
  destruct st as [prev lvl did need dst err];
  destruct t as [ty txt ps pe ln].
  unfold processToken, keepToken, startLine, separate; simpl.
  destruct debug; [reflexivity|].
  destruct ty, prev, did, need; reflexivity.
Qed.

Lemma stripLoop_stderr (debug : bool) (tokens : list Token) :
  forall st, traced (stripLoop indentChar debug st tokens) = stderr st.
Proof.
  induction tokens as [|t tokens IH]; cbn [stripLoop]; intros st;
    [reflexivity|].
  pose proof (step_stderr debug st t) as S.
  destruct (processToken indentChar debug st t) as [st1|e st1];
    simpl in S; [rewrite IH|]; exact S.
Qed.

End ErrorStream.

(* ------------------------------------------------------------------ *)
(** ** Failure at an INDENT that follows a line of one token *)

Section NeverFails.

Local Open Scope string_scope.

(** C1.  The claim: the rewriter never fails on a well-formed stream, and
    an INDENT met while [didNewLine] is true appends one indentation unit
    and processing goes on.  The code: line 87 writes through [mod], a
    name bound nowhere in the file, so that branch raises [NameError]
    and the loop ends.  First conjunct: every INDENT token, in every
    state.  Second conjunct: the token stream of the lines [a], [x] and
    an indented [y], which stops after [x] has been written. *)
Theorem C1_indent_at_line_start_raises_NameError :
  (forall (indentChar : string) (st : State) (text : string),
      processToken indentChar false st (tok INDENT text)
      = if didNewLine st
        then Raised (NameError "mod")
               (St.setIndentLevel st (indentLevel st + 1))
        else Normal (mkState INDENT (indentLevel st + 1) false true
                       (destination st) (stderr st)))
  /\ stripFile Streams.indentAfterOneTokenLine "" 0 false
     = Raised (NameError "mod")
         (mkState NEWLINE 1 true true ("a" ++ PyStr.newline ++ "x") "").
Proof.
  split; [|reflexivity].
  intros indentChar st text. apply step_indent. reflexivity.
Qed.

End NeverFails.

(* ------------------------------------------------------------------ *)
(** ** The leading docstring of a module *)

Section ModuleDocstring.

Local Open Scope string_scope.

(** C2.  The claim: the string statement that opens the input is removed
    also when blank lines or comment lines precede it.  The code: the NL
    token that ends a comment line or a blank line is processed by line
    127 and replaces the initial INDENT in [previousTokenType], so the
    test of line 74 keeps the string.  The three conjuncts evaluate a
    module whose docstring follows a comment line, a blank line, and
    nothing: the docstring is written in the first two cases and removed
    in the third. *)
Theorem C2_docstring_after_comment_or_blank_line_is_kept :
  written (stripFile Streams.commentThenDocstring "" 0 false)
  = PyStr.newline ++ PyStr.quoted "doc" ++ PyStr.newline
    ++ "x=1" ++ PyStr.newline
  /\ written (stripFile Streams.blankLineThenDocstring "" 0 false)
     = PyStr.newline ++ PyStr.quoted "doc" ++ PyStr.newline
       ++ "x=1" ++ PyStr.newline
  /\ written (stripFile Streams.docstringFirst "" 0 false)
     = PyStr.newline ++ "x=1" ++ PyStr.newline.
Proof.
  repeat split; reflexivity.
Qed.

End ModuleDocstring.

(* ------------------------------------------------------------------ *)
(** ** Running the rewriter twice *)

Section Idempotence.

Local Open Scope string_scope.

(** C3, the claim as stated fails.  A suite that opens with the two
    statements ["a"] and ["b"]: the first pass removes ["a"] only; in the
    token stream of what it wrote, ["b"] follows the INDENT, and the
    second pass removes it.  The two outputs differ. *)
Lemma C3_second_pass_strips_second_string :
  written (stripFile Streams.twoStrings "" 0 false)
  = Streams.twoStringsPass1
  /\ written (stripFile Streams.twoStringsRetokenized "" 0 false)
     = Streams.twoStringsPass2
  /\ Streams.twoStringsPass2 <> Streams.twoStringsPass1.
Proof.
  split; [reflexivity|]. split; [reflexivity|]. discriminate.
Qed.

End Idempotence.

(* ------------------------------------------------------------------ *)
(** ** After a DEDENT *)

Section AfterDedent.

Local Open Scope string_scope.

(** C4, the claim as stated fails.  After the DEDENT that closes the
    suite of [if x:], [previousTokenType] is DEDENT, not the INDENT that
    the loop starts with, and the statement ['s'] that follows is
    written. *)
Lemma C4_previous_kind_after_dedent_is_dedent :
  stripFile Streams.upToDedent "" 0 false
  = Normal (mkState DEDENT 0 true true
              ("if x:" ++ PyStr.newline ++ PyStr.tab ++ "y") "")
  /\ DEDENT <> previousTokenType (initialState "")
  /\ written (stripFile Streams.stringAfterDedent "" 0 false)
     = "if x:" ++ PyStr.newline ++ PyStr.tab ++ "y" ++ PyStr.newline
       ++ "'s'" ++ PyStr.newline.
Proof.
  split; [reflexivity|]. split; [discriminate | reflexivity].
Qed.

(** C4, as amended.  A DEDENT token never fails; after it
    [previousTokenType] is DEDENT and [indentLevel] is one less.  A
    STRING token that comes next is written verbatim, after the pending
    line break if there is one. *)
Theorem C4_string_after_dedent_is_written
    (indentChar : string) (st : State) (t s : Token) :
  tokenType t = DEDENT ->
  tokenType s = STRING ->
  exists st',
    processToken indentChar false st t = Normal st'
    /\ previousTokenType st' = DEDENT
    /\ indentLevel st' = indentLevel st - 1
    /\ destination st' = destination st
    /\ exists st'',
         processToken indentChar false st' s = Normal st''
         /\ destination st''
            = destination st ++ pendingBreak indentChar st' ++ tokenText s.
Proof.
  intros Ht Hs. rewrite (step_dedent indentChar st t Ht).
  eexists. split; [reflexivity|]. do 3 (split; [reflexivity|]).
  match goal with
  | |- exists st'' : State, processToken _ _ ?x _ = _ /\ _ =>
      destruct (step_content_writes indentChar x s) as (st'' & E & _ & D)
  end.
  - simpl. rewrite Hs. reflexivity.
  - exists st''. split; [exact E|]. rewrite D.
    simpl. rewrite Hs. reflexivity.
Qed.

Lemma C4_string_after_dedent_is_written_witness :
  exists st',
    processToken PyStr.tab false
      (mkState NEWLINE 1 true true "y" "") (tok DEDENT "") = Normal st'
    /\ previousTokenType st' = DEDENT
    /\ indentLevel st' = 1 - 1
    /\ destination st' = "y"
    /\ exists st'',
         processToken PyStr.tab false st' (tok STRING "'s'") = Normal st''
         /\ destination st''
            = "y" ++ pendingBreak PyStr.tab st' ++ "'s'".
Proof.
  apply (C4_string_after_dedent_is_written PyStr.tab
           (mkState NEWLINE 1 true true "y" "")
           (tok DEDENT "") (tok STRING "'s'")); reflexivity.
Defined.

End AfterDedent.

(* ------------------------------------------------------------------ *)
(** ** Which tokens are skipped *)

Section DropRule.

Local Open Scope string_scope.

(** The rule of lines 74-75, token by token.  A token is skipped exactly
    when it is a COMMENT, or a STRING met while [previousTokenType] is
    INDENT.  A skipped token leaves the whole state as it was.  Every other
    token is processed: it becomes the previous kind, unless it is the
    INDENT that fails at line 87.  A STRING met with any other previous
    kind is written verbatim. *)
Lemma drop_rule (indentChar : string) (st : State) (t : Token) :
  (keepToken (previousTokenType st) (tokenType t) = false
   <-> tokenType t = COMMENT
       \/ (tokenType t = STRING /\ previousTokenType st = INDENT))
  /\ (keepToken (previousTokenType st) (tokenType t) = false ->
      processToken indentChar false st t = Normal st)
  /\ (keepToken (previousTokenType st) (tokenType t) = true ->
      (exists st',
          processToken indentChar false st t = Normal st'
          /\ previousTokenType st' = tokenType t)
      \/ (tokenType t = INDENT /\ didNewLine st = true))
  /\ (tokenType t = STRING -> previousTokenType st <> INDENT ->
      exists st',
        processToken indentChar false st t = Normal st'
        /\ destination st'
           = destination st ++ pendingBreak indentChar st ++ tokenText t).
Proof.
  split; [|split; [|split]].
  - unfold keepToken.
    destruct (tokenType t), (previousTokenType st); simpl;
      split; intros H; try discriminate; auto;
      destruct H as [H | [H1 H2]]; discriminate.
  - apply step_dropped.
  - intros K.
    destruct (processToken indentChar false st t) as [st'|e st'] eqn:E.
    + left. exists st'. split; [reflexivity|].
      rewrite (step_previous _ _ _ _ E), K. reflexivity.
    + right. revert E K.
      destruct st as [prev lvl did need dst err];
      destruct t as [ty txt ps pe ln].
      unfold processToken, keepToken; simpl.
      destruct ty, prev, did; simpl; intros E K;
        try discriminate; auto.
  - intros Hs Hp.
    destruct (step_content_writes indentChar st t) as (st' & E & _ & D).
    + unfold isContent, keepToken. rewrite Hs.
      destruct (previousTokenType st); simpl; try reflexivity.
      now elim Hp.
    + exists st'. split; [exact E|]. rewrite D.
      unfold separator, isNameOrNumber. rewrite Hs. reflexivity.
Qed.

(** Every token of a run of STRING and COMMENT tokens met while
    [previousTokenType] is INDENT is skipped: a skipped token leaves
    INDENT in place for the next one. *)
Lemma run_at_sentinel_is_dropped (indentChar : string) (run : list Token) :
  forall st,
    previousTokenType st = INDENT ->
    forallb isStringOrComment run = true ->
    stripLoop indentChar false st run = Normal st.
Proof.
  induction run as [|t run IH]; cbn [stripLoop forallb]; intros st Hp H;
    [reflexivity|].
  apply andb_true_iff in H as [Ht Hrun].
  rewrite step_dropped; [now apply IH|].
  rewrite Hp. unfold isStringOrComment in Ht.
  destruct (tokenType t); try discriminate; reflexivity.
Qed.

(** C5, the claim as stated fails.  The claim bounds the strings dropped
    at a suite start by one.  A suite that opens with the docstring
    ["a" "b"], two adjacent STRING tokens after the INDENT: the state
    after the INDENT is the state after both strings, and neither is in
    the output. *)
Lemma C5_adjacent_strings_are_both_dropped :
  stripFile (firstn 7 MoreStreams.adjacentStrings) "" 0 false
  = Normal (mkState INDENT 1 false true "def f():" "")
  /\ stripFile (firstn 9 MoreStreams.adjacentStrings) "" 0 false
     = Normal (mkState INDENT 1 false true "def f():" "")
  /\ written (stripFile MoreStreams.adjacentStrings "" 0 false)
     = "def f():" ++ PyStr.newline ++ PyStr.tab ++ "x" ++ PyStr.newline.
Proof.
  repeat split; reflexivity.
Qed.

(** C5, as amended.  The tokens discarded are every COMMENT token and
    every STRING token met while [previousTokenType] is INDENT; a
    discarded token writes nothing and leaves the four variables as they
    were, and every other token is processed.  Since INDENT stays in
    place, every token of a run of STRING and COMMENT tokens met there is
    discarded, not the first string only; a STRING met with another
    previous kind (a second string statement follows a NEWLINE) is written
    verbatim. *)
Theorem C5_every_string_met_at_the_sentinel_is_dropped
    (indentChar : string) (st : State) (t : Token) (run : list Token) :
  ((keepToken (previousTokenType st) (tokenType t) = false
    <-> tokenType t = COMMENT
        \/ (tokenType t = STRING /\ previousTokenType st = INDENT))
   /\ (keepToken (previousTokenType st) (tokenType t) = false ->
       processToken indentChar false st t = Normal st)
   /\ (keepToken (previousTokenType st) (tokenType t) = true ->
       (exists st',
           processToken indentChar false st t = Normal st'
           /\ previousTokenType st' = tokenType t)
       \/ (tokenType t = INDENT /\ didNewLine st = true))
   /\ (tokenType t = STRING -> previousTokenType st <> INDENT ->
       exists st',
         processToken indentChar false st t = Normal st'
         /\ destination st'
            = destination st ++ pendingBreak indentChar st ++ tokenText t))
  /\ (previousTokenType st = INDENT ->
      forallb isStringOrComment run = true ->
      stripLoop indentChar false st run = Normal st).
Proof.
  split.
  - apply drop_rule.
  - intros Hp Hrun. now apply run_at_sentinel_is_dropped.
Qed.

Lemma C5_every_string_met_at_the_sentinel_is_dropped_witness :
  processToken PyStr.tab false (initialState "") (tok COMMENT "# c")
  = Normal (initialState "")
  /\ (exists st',
         processToken PyStr.tab false
           (mkState NEWLINE 1 true true "x" "") (tok STRING "'b'")
         = Normal st'
         /\ destination st'
            = "x" ++ pendingBreak PyStr.tab
                       (mkState NEWLINE 1 true true "x" "") ++ "'b'")
  /\ stripLoop PyStr.tab false (mkState INDENT 1 false true "def f():" "")
       [tok STRING "'a'"; tok COMMENT "# c"; tok STRING "'b'"]
     = Normal (mkState INDENT 1 false true "def f():" "").
Proof.
  split; [|split].
  - apply (proj1 (proj2 (proj1
             (C5_every_string_met_at_the_sentinel_is_dropped PyStr.tab
                (initialState "") (tok COMMENT "# c") [])))).
    reflexivity.
  - apply (proj2 (proj2 (proj2 (proj1
             (C5_every_string_met_at_the_sentinel_is_dropped PyStr.tab
                (mkState NEWLINE 1 true true "x" "")
                (tok STRING "'b'") []))))).
    + reflexivity.
    + simpl. discriminate.
  - apply (proj2
             (C5_every_string_met_at_the_sentinel_is_dropped PyStr.tab
                (mkState INDENT 1 false true "def f():" "")
                (tok COMMENT "# c")
                [tok STRING "'a'"; tok COMMENT "# c"; tok STRING "'b'"])).
    + reflexivity.
    + reflexivity.
Defined.

End DropRule.

(* ------------------------------------------------------------------ *)
(** ** The space between names and numbers *)

Section Spacing.

Local Open Scope string_scope.

(** C6.  A content token never fails.  Between the pending line break (if
    any) and its text it writes [separator]: one space when its kind and
    the previous kind are both NAME or NUMBER, and nothing otherwise.
    The tokens [return], [x] give the text [return x]; the tokens [f],
    [(] give [f(]. *)
Theorem C6_spacing_rule :
  (forall (indentChar : string) (st : State) (t : Token),
      isContent (previousTokenType st) (tokenType t) = true ->
      (exists st',
          processToken indentChar false st t = Normal st'
          /\ destination st'
             = destination st ++ pendingBreak indentChar st
               ++ separator (previousTokenType st) (tokenType t)
               ++ tokenText t)
      /\ (separator (previousTokenType st) (tokenType t) = " "
          <-> (tokenType t = NAME \/ tokenType t = NUMBER)
              /\ (previousTokenType st = NAME
                  \/ previousTokenType st = NUMBER))
      /\ (separator (previousTokenType st) (tokenType t) = " "
          \/ separator (previousTokenType st) (tokenType t) = ""))
  /\ written (stripFile [tok NAME "return"; tok NAME "x"] "" 0 false)
     = "return x"
  /\ written (stripFile [tok NAME "f"; tok OP "("] "" 0 false) = "f(".
Proof.
  split; [|split; reflexivity].
  intros indentChar st t C. split; [|split].
  - destruct (step_content_writes indentChar st t C) as (st' & E & _ & D).
    exists st'. split; assumption.
  - unfold separator, isNameOrNumber.
    destruct (tokenType t), (previousTokenType st); simpl; split;
      try discriminate; intros H; auto;
      destruct H as [[H|H] [H'|H']]; discriminate.
  - unfold separator.
    destruct (isNameOrNumber (tokenType t)
              && isNameOrNumber (previousTokenType st)); auto.
Qed.

Lemma C6_spacing_rule_witness :
  exists st',
    processToken PyStr.tab false
      (mkState NAME 0 false false "return" "") (tok NAME "x") = Normal st'
    /\ destination st'
       = "return"
         ++ pendingBreak PyStr.tab (mkState NAME 0 false false "return" "")
         ++ separator NAME NAME ++ "x".
Proof.
  apply (proj1 (proj1 C6_spacing_rule PyStr.tab
                  (mkState NAME 0 false false "return" "")
                  (tok NAME "x") eq_refl)).
Defined.

End Spacing.

(* ------------------------------------------------------------------ *)
(** ** Line starts *)

Section LineStarts.

Local Open Scope string_scope.

Lemma initial_breakPendingInv (dest : string) :
  breakPendingInv (initialState dest).
Proof.
  unfold breakPendingInv; simpl. discriminate.
Qed.

(** At a pending line break no space is written. *)
Lemma separator_at_break (indent : Z) (dest : string)
    (pre : list Token) (st : State) (ty : TokenType) :
  stripFile pre dest indent false = Normal st ->
  needNewLine st = true ->
  separator (previousTokenType st) ty = "".
Proof.
  intros Run Need.
  pose proof (stripLoop_breakPendingInv _ _ _ _
                (initial_breakPendingInv dest) Run Need) as P.
  unfold separator. rewrite P, andb_false_r. reflexivity.
Qed.



(** C10.  The first content token of an output line is written right
    after the indentation, with no space before its text, whatever its
    kind and the kind of the content token before it: this holds for a
    token met with a line break pending, and for the first content token
    of the stream. *)
Theorem C10_no_space_at_line_start
    (indent : Z) (dest : string) (pre : list Token)
    (st : State) (t : Token) :
  stripFile pre dest indent false = Normal st ->
  isContent (previousTokenType st) (tokenType t) = true ->
  needNewLine st = true \/ noContent INDENT pre = true ->
  separator (previousTokenType st) (tokenType t) = ""
  /\ exists st',
       processToken (indentCharOf indent) false st t = Normal st'
       /\ destination st'
          = destination st ++ pendingBreak (indentCharOf indent) st
            ++ tokenText t.
Proof.
  intros Run C Start.
  assert (S : separator (previousTokenType st) (tokenType t) = "").
  { destruct Start as [Need | First].
    - exact (separator_at_break indent dest pre st _ Run Need).
    - destruct (stripLoop_noContent (indentCharOf indent) pre
                  (initialState dest) st eq_refl First Run) as [P _].
      unfold separator. rewrite P, andb_false_r. reflexivity. }
  split; [exact S|].
  destruct (step_content_writes (indentCharOf indent) st t C)
    as (st' & E & _ & D).
  exists st'. split; [exact E|]. rewrite D, S. reflexivity.
Qed.

Lemma C10_no_space_at_line_start_witness :
  separator NEWLINE NAME = ""
  /\ exists st',
       processToken (indentCharOf 0) false
         (mkState NEWLINE 0 false true "a" "") (tok NAME "x") = Normal st'
       /\ destination st'
          = "a" ++ pendingBreak (indentCharOf 0)
                     (mkState NEWLINE 0 false true "a" "")
            ++ "x".
Proof.
  apply (C10_no_space_at_line_start 0 ""
           [tok NAME "a"; Streams.nl]
           (mkState NEWLINE 0 false true "a" "") (tok NAME "x")).
  - reflexivity.
  - reflexivity.
  - left. reflexivity.
Defined.

End LineStarts.

(* ------------------------------------------------------------------ *)
(** ** Blank lines *)

Section BlankLines.

Local Open Scope string_scope.





End BlankLines.

(* ------------------------------------------------------------------ *)
(** ** The dump option *)

Section Dump.

Local Open Scope string_scope.

(** C9.  The claim: with the dump option set, a trace line is written to
    the error stream for every token.  The code: line 198 calls
    [stripFile] with three arguments, so [debug] is false whatever
    [args.dump] is, and nothing reaches the error stream; and had the
    option been passed, the trace of lines 61-69 names variables bound
    nowhere, so the first token would raise [NameError] before anything
    is printed or written. *)
Theorem C9_dump_option_is_not_passed :
  forall (output : option string) (indent : Z) (files : list string)
         (sourceFile : list Token) (destinationFile : string),
    mainStripFile (mkArgs output indent true files)
      sourceFile destinationFile
    = mainStripFile (mkArgs output indent false files)
        sourceFile destinationFile
    /\ traced (mainStripFile (mkArgs output indent true files)
                 sourceFile destinationFile) = ""
    /\ (forall (t : Token) (rest : list Token),
           stripFile (t :: rest) destinationFile indent true
           = Raised (NameError "indentCount")
               (initialState destinationFile)).
Proof.
  intros output indent files sourceFile destinationFile.
  split; [reflexivity|]. split.
  - unfold mainStripFile, stripFile. apply stripLoop_stderr.
  - intros t rest. reflexivity.
Qed.

End Dump.

(* ------------------------------------------------------------------ *)
(** ** The destination is only appended to *)

Section SinkIndependence.

Local Open Scope string_scope.

(** A state over a destination that held [dest] before. *)
Let shifted (dest : string) (st : State) : State :=
  mkState (previousTokenType st) (indentLevel st) (didNewLine st)
          (needNewLine st) (dest ++ destination st) (stderr st).

Lemma step_onSink (indentChar dest : string) (debug : bool)
    (st : State) (t : Token) :
  processToken indentChar debug (shifted dest st) t
  = onSink dest (processToken indentChar debug st t).
Proof.
  destruct st as [prev lvl did need dst err];
  destruct t as [ty txt ps pe ln].
  unfold processToken, shifted, keepToken, startLine, separate,
    isNameOrNumber, onSink, St.write, St.setPrevious, St.setNeedNewLine,
    St.setDidNewLine, St.setIndentLevel; simpl.
  destruct debug; [reflexivity|].
  destruct ty, prev, did, need; simpl;
    rewrite ?StrFacts.append_assoc; reflexivity.
Qed.

Lemma stripLoop_onSink (indentChar dest : string) (debug : bool)
    (tokens : list Token) :
  forall st,
    stripLoop indentChar debug (shifted dest st) tokens
    = onSink dest (stripLoop indentChar debug st tokens).
Proof.
  induction tokens as [|t tokens IH]; cbn [stripLoop]; intros st.
  - reflexivity.
  - rewrite step_onSink.
    destruct (processToken indentChar debug st t) as [st1|e st1];
      cbn [onSink]; [|reflexivity].
    apply (IH st1).
Qed.

(** X1.  [stripFile] never reads or rewrites what the destination holds:
    run on a destination that holds [dest], it ends as it does on an empty
    one, exception and variables included, with [dest] in front of what it
    wrote. *)
Theorem X1_destination_is_only_appended_to
    (source : list Token) (dest : string) (indent : Z) (debug : bool) :
  stripFile source dest indent debug
  = onSink dest (stripFile source "" indent debug).
Proof.
  unfold stripFile. rewrite <- stripLoop_onSink.
  unfold shifted, initialState; simpl.
  rewrite StrFacts.append_nil_r. reflexivity.
Qed.

End SinkIndependence.

(* ------------------------------------------------------------------ *)
(** ** When the rewriter fails *)

Section Failure.

Local Open Scope string_scope.

Lemma step_raised (indentChar : string) (st st' : State) (t : Token)
    (e : Exception) :
  processToken indentChar false st t = Raised e st' ->
  e = NameError "mod"
  /\ tokenType t = INDENT
  /\ didNewLine st = true
  /\ st' = St.setIndentLevel st (indentLevel st + 1).
Proof.
  destruct st as [prev lvl did need dst err];
  destruct t as [ty txt ps pe ln].
  unfold processToken, keepToken, startLine, separate; simpl.
  destruct ty, prev, did; simpl; intros H;
    try discriminate; inversion H; subst; auto.
Qed.

Lemma stripLoop_raised (indentChar : string) (tokens : list Token) :
  forall st st' e,
    stripLoop indentChar false st tokens = Raised e st' ->
    exists pre t rest st0,
      tokens = (pre ++ t :: rest)%list
      /\ stripLoop indentChar false st pre = Normal st0
      /\ processToken indentChar false st0 t = Raised e st'.
Proof.
  induction tokens as [|t tokens IH]; cbn [stripLoop]; intros st st' e.
  - discriminate.
  - destruct (processToken indentChar false st t) as [st1|e1 st1] eqn:E.
    + intros H. destruct (IH _ _ _ H) as (pre & u & rest & st0 & S & R & P).
      exists (t :: pre), u, rest, st0. subst tokens.
      split; [reflexivity|]. split; [|exact P].
      cbn [stripLoop]. rewrite E. exact R.
    + intros H. inversion H; subst.
      exists [], t, tokens, st. repeat split; assumption.
Qed.

(** The two flags after a content token. *)
Lemma content_flags (indentChar : string) (st : State) (t : Token) :
  let st' := St.setPrevious
               (St.write (separate (startLine indentChar st) t) (tokenText t))
               (tokenType t) in
  didNewLine st' = needNewLine st
  /\ needNewLine st' = false
  /\ indentLevel st' = indentLevel st.
Proof.
  destruct st as [prev lvl did need dst err].
  unfold startLine, separate; simpl.
  destruct need; simpl;
    destruct (isNameOrNumber (tokenType t) && isNameOrNumber prev);
    simpl; auto.
Qed.

(** What [headersOk] tracks: [lineStart] holds whenever [didNewLine] does,
    and a pending line break comes with a layout kind before it. *)
Let tracked (lineStart : bool) (st : State) : Prop :=
  (didNewLine st = true -> lineStart = true)
  /\ (needNewLine st = true -> isLayoutKind (previousTokenType st) = true).

Lemma stripLoop_headersOk (indentChar : string) (tokens : list Token) :
  forall st lineStart,
    tracked lineStart st ->
    headersOk (previousTokenType st) lineStart tokens = true ->
    exists st', stripLoop indentChar false st tokens = Normal st'.
Proof.
  induction tokens as [|t tokens IH];
    cbn [stripLoop headersOk]; intros st lineStart [Td Tn] H.
  - exists st. reflexivity.
  - destruct (keepToken (previousTokenType st) (tokenType t)) eqn:K.
    + destruct (TokenType.eqb (tokenType t) INDENT) eqn:I.
      * apply andb_true_iff in H as [Hl H].
        assert (Ht : tokenType t = INDENT)
          by (destruct (tokenType t); try discriminate; reflexivity).
        assert (Hd : didNewLine st = false).
        { destruct (didNewLine st); [|reflexivity].
          rewrite (Td eq_refl) in Hl. discriminate. }
        rewrite (step_indent indentChar st t Ht), Hd.
        eapply IH; [|exact H]. split; simpl; intros; [discriminate | auto].
      * destruct (isLayoutKind (tokenType t)) eqn:L.
        -- destruct (processToken indentChar false st t) as [st1|e st1] eqn:E.
           ++ eapply IH.
              2:{ rewrite (step_previous _ _ _ _ E), K. exact H. }
              revert E Td Tn L I. clear.
              destruct st as [prev lvl did need dst err];
              destruct t as [ty txt ps pe ln].
              unfold processToken, keepToken; simpl.
              destruct ty, prev, did; simpl; intros E Td Tn L I;
                try discriminate; inversion E; subst; simpl;
                split; intros; auto.
           ++ destruct (step_raised _ _ _ _ _ E) as (_ & Ht & _).
              rewrite Ht in I. discriminate.
        -- assert (C : isContent (previousTokenType st) (tokenType t) = true).
           { unfold isContent. rewrite K. revert L I. clear.
             unfold isLayoutKind.
             destruct (tokenType t); simpl; intros; try discriminate;
               reflexivity. }
           rewrite (step_content indentChar st t C).
           eapply IH; [|exact H].
           destruct (content_flags indentChar st t) as (Fd & Fn & _).
           split; [rewrite Fd; exact Tn | rewrite Fn; discriminate].
    + rewrite (step_dropped indentChar st t K).
      eapply IH; [|exact H]. split; assumption.
Qed.

End Failure.

(* ------------------------------------------------------------------ *)
(** ** More facts about strings *)

Module MoreStrFacts.

Lemma squeeze_append (a b : string) :
  Blank.squeeze (append a b) = append (Blank.squeeze a) (Blank.squeeze b).
Proof.
  induction a as [|c a IH]; simpl; [reflexivity|].
  destruct (Blank.isBlank c); simpl; now rewrite IH.
Qed.

Lemma squeeze_repeat (s : string) (n : nat) :
  Blank.squeeze s = EmptyString ->
  Blank.squeeze (PyStr.repeat s n) = EmptyString.
Proof.
  intros H. induction n as [|n IH]; simpl; [reflexivity|].
  now rewrite squeeze_append, H, IH.
Qed.

Lemma squeeze_indentChar (indent : Z) :
  Blank.squeeze (indentCharOf indent) = EmptyString.
Proof.
  unfold indentCharOf, PyStr.mul.
  destruct (indent =? 0); [reflexivity|].
  apply squeeze_repeat. reflexivity.
Qed.

Lemma repeat_add (s : string) (n m : nat) :
  PyStr.repeat s (n + m) = append (PyStr.repeat s n) (PyStr.repeat s m).
Proof.
  induction n as [|n IH]; simpl; [reflexivity|].
  now rewrite IH, StrFacts.append_assoc.
Qed.

Lemma repeat_repeat (s : string) (n m : nat) :
  PyStr.repeat (PyStr.repeat s n) m = PyStr.repeat s (n * m).
Proof.
  induction m as [|m IH]; simpl.
  - now rewrite Nat.mul_0_r.
  - rewrite IH, <- repeat_add. f_equal. lia.
Qed.

Lemma repeat_one (s : string) : PyStr.repeat s 1 = s.
Proof.
  simpl. apply StrFacts.append_nil_r.
Qed.

Lemma length_append (a b : string) :
  String.length (append a b) = (String.length a + String.length b)%nat.
Proof.
  induction a as [|c a IH]; simpl; [reflexivity | now rewrite IH].
Qed.

Lemma length_repeat (s : string) (n : nat) :
  String.length (PyStr.repeat s n) = (String.length s * n)%nat.
Proof.
  induction n as [|n IH]; simpl; [lia|].
  rewrite length_append, IH. lia.
Qed.

End MoreStrFacts.

(* ------------------------------------------------------------------ *)
(** ** What is written, blanks apart *)

Section TextPreserved.

Local Open Scope string_scope.

Variable indent : Z.

Lemma squeeze_pendingBreak (st : State) :
  Blank.squeeze (pendingBreak (indentCharOf indent) st) = "".
Proof.
  unfold pendingBreak. destruct (needNewLine st); [|reflexivity].
  rewrite MoreStrFacts.squeeze_append. unfold PyStr.mul.
  rewrite MoreStrFacts.squeeze_repeat
    by apply MoreStrFacts.squeeze_indentChar.
  reflexivity.
Qed.

Lemma squeeze_separator (prev ty : TokenType) :
  Blank.squeeze (separator prev ty) = "".
Proof.
  unfold separator.
  destruct (isNameOrNumber ty && isNameOrNumber prev); reflexivity.
Qed.

Lemma stripLoop_texts (tokens : list Token) :
  forall st st',
    stripLoop (indentCharOf indent) false st tokens = Normal st' ->
    Blank.squeeze (destination st')
    = Blank.squeeze
        (destination st
         ++ textsOf (contentTokens (previousTokenType st) tokens)).
Proof.
  induction tokens as [|t tokens IH];
    cbn [stripLoop contentTokens textsOf]; intros st st'.
  - intros H. inversion H; subst.
    now rewrite StrFacts.append_nil_r.
  - destruct (isContent (previousTokenType st) (tokenType t)) eqn:C.
    + destruct (step_content_writes (indentCharOf indent) st t C)
        as (st1 & E & P & D).
      rewrite E. intros H. rewrite (IH _ _ H), P.
      cbn [textsOf].
      rewrite !MoreStrFacts.squeeze_append, D.
      rewrite !MoreStrFacts.squeeze_append.
      rewrite squeeze_pendingBreak, squeeze_separator. simpl.
      now rewrite StrFacts.append_assoc.
    + destruct (processToken (indentCharOf indent) false st t)
        as [st1|e st1] eqn:E; [|discriminate].
      intros H. rewrite (IH _ _ H).
      rewrite (step_previous _ _ _ _ E).
      assert (D : destination st1 = destination st).
      { revert E C. clear.
        destruct st as [prev lvl did need dst err];
        destruct t as [ty txt ps pe ln].
        unfold processToken, isContent, keepToken; simpl.
        destruct ty, prev, did; simpl; intros E C;
          try discriminate; inversion E; subst; reflexivity. }
      now rewrite D.
Qed.

(** X4.  When [stripFile] ends normally, everything it has added to the
    destination besides the texts of the content tokens is blank: with
    spaces, tabs and line breaks taken out, the destination is what it
    held before followed by the texts of the tokens that reached the final
    branch, in stream order. *)
Theorem X4_output_is_the_token_texts_blanks_apart
    (source : list Token) (dest : string) (st : State) :
  stripFile source dest indent false = Normal st ->
  Blank.squeeze (destination st)
  = Blank.squeeze (dest ++ textsOf (contentTokens INDENT source)).
Proof.
  unfold stripFile. intros H.
  apply (stripLoop_texts source (initialState dest) st H).
Qed.

End TextPreserved.

Section TextPreservedWitness.

Local Open Scope string_scope.

Lemma X4_output_is_the_token_texts_blanks_apart_witness :
  Blank.squeeze
    (destination
       (mkState ENDMARKER 0 true false
          ("if x:" ++ PyStr.newline ++ PyStr.tab ++ "y" ++ PyStr.newline
           ++ "'s'" ++ PyStr.newline) ""))
  = Blank.squeeze
      ("" ++ textsOf (contentTokens INDENT Streams.stringAfterDedent)).
Proof.
  apply (X4_output_is_the_token_texts_blanks_apart 0
           Streams.stringAfterDedent "").
  reflexivity.
Defined.

End TextPreservedWitness.

(* ------------------------------------------------------------------ *)
(** ** Before the first content token *)

Section FirstLine.

Local Open Scope string_scope.

Variable indentChar : string.

Lemma stripLoop_before_content (tokens : list Token) :
  forall st,
    didNewLine st = false ->
    isNameOrNumber (previousTokenType st) = false ->
    noContent (previousTokenType st) tokens = true ->
    exists st',
      stripLoop indentChar false st tokens = Normal st'
      /\ destination st' = destination st
      /\ didNewLine st' = false
      /\ isNameOrNumber (previousTokenType st') = false
      /\ needNewLine st' = needNewLine st || existsb schedulesBreak tokens.
Proof.
  induction tokens as [|t tokens IH];
    cbn [stripLoop noContent existsb]; intros st Hd Hp N.
  - exists st. rewrite orb_false_r. auto.
  - destruct (isContent (previousTokenType st) (tokenType t)) eqn:C;
      [discriminate|].
    assert (S : exists st1,
               processToken indentChar false st t = Normal st1
               /\ destination st1 = destination st
               /\ didNewLine st1 = false
               /\ isNameOrNumber (previousTokenType st1) = false
               /\ needNewLine st1 = needNewLine st || schedulesBreak t
               /\ previousTokenType st1
                  = if keepToken (previousTokenType st) (tokenType t)
                    then tokenType t else previousTokenType st).
    { revert Hd Hp C. clear.
      destruct st as [prev lvl did need dst err];
      destruct t as [ty txt ps pe ln].
      unfold processToken, isContent, keepToken, schedulesBreak,
        isNameOrNumber; simpl.
      intros -> Hp C.
      destruct ty, prev; simpl in *; try discriminate;
        eexists; (split; [reflexivity|]); simpl;
        rewrite ?orb_false_r, ?orb_true_r; auto. }
    destruct S as (st1 & E & D1 & Hd1 & Hp1 & N1 & P1).
    rewrite E. rewrite <- P1 in N.
    destruct (IH st1 Hd1 Hp1 N) as (st' & E' & D' & Hd' & Hp' & N').
    exists st'. split; [exact E'|]. split; [congruence|].
    split; [exact Hd'|]. split; [exact Hp'|].
    rewrite N', N1, orb_assoc. reflexivity.
Qed.

End FirstLine.

Section FirstLineOfFile.

Local Open Scope string_scope.

(** X5.  Up to the first content token [stripFile] never fails and writes
    nothing; a line break is pending then exactly when a NEWLINE, NL or
    INDENT token has been met.  So the first content token is written
    right after what the destination held when none of them came before
    it, and after a line break and the indentation otherwise: an input
    that opens with a comment line, a blank line or a removed docstring
    gives an output that opens with an empty line. *)
Theorem X5_nothing_is_written_before_the_first_content_token
    (pre : list Token) (dest : string) (indent : Z) :
  noContent INDENT pre = true ->
  exists st,
    stripFile pre dest indent false = Normal st
    /\ destination st = dest
    /\ needNewLine st = existsb schedulesBreak pre
    /\ forall t : Token,
         isContent (previousTokenType st) (tokenType t) = true ->
         written (stripFile (pre ++ [t])%list dest indent false)
         = dest
           ++ (if existsb schedulesBreak pre
               then PyStr.newline
                    ++ PyStr.mul (indentCharOf indent) (indentLevel st)
               else "")
           ++ tokenText t.
Proof.
  intros N. unfold stripFile.
  destruct (stripLoop_before_content (indentCharOf indent) pre
              (initialState dest) eq_refl eq_refl N)
    as (st & E & D & Hd & Hp & Hn).
  exists st. split; [exact E|]. split; [exact D|].
  split; [exact Hn|].
  intros t C. rewrite stripLoop_app, E. cbn [stripLoop].
  destruct (step_content_writes (indentCharOf indent) st t C)
    as (st' & E' & _ & D').
  rewrite E'. cbn [written]. rewrite D', D.
  unfold separator, pendingBreak. rewrite Hp, andb_false_r, Hn.
  reflexivity.
Qed.

Lemma X5_nothing_is_written_before_the_first_content_token_witness :
  exists st,
    stripFile [tok COMMENT "#!/usr/bin/python3"; tok NL PyStr.newline]
      "" 0 false = Normal st
    /\ destination st = ""
    /\ needNewLine st
       = existsb schedulesBreak
           [tok COMMENT "#!/usr/bin/python3"; tok NL PyStr.newline]
    /\ forall t : Token,
         isContent (previousTokenType st) (tokenType t) = true ->
         written
           (stripFile
              ([tok COMMENT "#!/usr/bin/python3"; tok NL PyStr.newline]
               ++ [t])%list "" 0 false)
         = ""
           ++ (if existsb schedulesBreak
                    [tok COMMENT "#!/usr/bin/python3"; tok NL PyStr.newline]
               then PyStr.newline
                    ++ PyStr.mul (indentCharOf 0) (indentLevel st)
               else "")
           ++ tokenText t.
Proof.
  apply (X5_nothing_is_written_before_the_first_content_token
           [tok COMMENT "#!/usr/bin/python3"; tok NL PyStr.newline] "" 0).
  reflexivity.
Defined.

End FirstLineOfFile.

(* ------------------------------------------------------------------ *)
(** ** The indentation of a line *)

Section Indentation.

Local Open Scope string_scope.

(** X6.  The indentation written at depth [level] under the option
    [-i indent] is one character repeated: a tab [level] times when
    [indent] is 0, a space [indent * level] times otherwise, and nothing
    at all when [indent] is negative or [level] is not positive. *)
Theorem X6_indentation_in_closed_form (indent level : Z) :
  PyStr.mul (indentCharOf indent) level
  = PyStr.repeat (if (indent =? 0)%Z then PyStr.tab else PyStr.space)
      ((if (indent =? 0)%Z then 1 else Z.to_nat indent) * Z.to_nat level)
  /\ String.length (PyStr.mul (indentCharOf indent) level)
     = ((if (indent =? 0)%Z then 1 else Z.to_nat indent) * Z.to_nat level)%nat
  /\ (indent < 0 \/ level <= 0 ->
      PyStr.mul (indentCharOf indent) level = "").
Proof.
  assert (F : PyStr.mul (indentCharOf indent) level
              = PyStr.repeat
                  (if (indent =? 0)%Z then PyStr.tab else PyStr.space)
                  ((if (indent =? 0)%Z then 1 else Z.to_nat indent)
                   * Z.to_nat level)).
  { unfold PyStr.mul, indentCharOf.
    destruct (indent =? 0)%Z.
    - now rewrite Nat.mul_1_l.
    - apply MoreStrFacts.repeat_repeat. }
  split; [exact F|]. split.
  - rewrite F, MoreStrFacts.length_repeat.
    destruct (indent =? 0)%Z; simpl; lia.
  - intros H. rewrite F.
    replace ((if (indent =? 0)%Z then 1 else Z.to_nat indent) * Z.to_nat level)%nat
      with O; [reflexivity|].
    destruct (indent =? 0)%Z eqn:I.
    + apply Z.eqb_eq in I. lia.
    + lia.
Qed.

Lemma X6_indentation_in_closed_form_witness :
  PyStr.mul (indentCharOf (-4)) 2 = "".
Proof.
  apply (proj2 (proj2 (X6_indentation_in_closed_form (-4) 2))).
  left. lia.
Defined.

End Indentation.

(* ------------------------------------------------------------------ *)
(** ** The destination path *)

Module PathFacts.

Import Path.
Local Open Scope string_scope.

Lemma append_inv_tail (a b c : string) : a ++ c = b ++ c -> a = b.
Proof.
  revert b. induction a as [|x a IH]; intros [|y b] H; simpl in H.
  - reflexivity.
  - apply (f_equal String.length) in H. simpl in H.
    rewrite MoreStrFacts.length_append in H. lia.
  - apply (f_equal String.length) in H. simpl in H.
    rewrite MoreStrFacts.length_append in H. lia.
  - inversion H; subst. f_equal. now apply IH.
Qed.

Lemma dotless_append (a b : string) :
  dotless (a ++ b) = dotless a && dotless b.
Proof.
  induction a as [|x a IH]; simpl; [reflexivity|].
  now rewrite IH, andb_assoc.
Qed.

Lemma rsplitDot_dotless (s : string) :
  dotless s = true -> rsplitDot s = None.
Proof.
  induction s as [|c s IH]; simpl; [reflexivity|].
  intros H. apply andb_true_iff in H as [Hc Hs].
  rewrite (IH Hs). destruct (Ascii.eqb c "."); [discriminate | reflexivity].
Qed.

Lemma rsplitDot_split (h t : string) :
  dotless t = true -> rsplitDot (h ++ "." ++ t) = Some (h, t).
Proof.
  intros Ht. induction h as [|c h IH].
  - simpl. now rewrite (rsplitDot_dotless t Ht).
  - change (String c h ++ "." ++ t) with (String c (h ++ "." ++ t)).
    cbn [rsplitDot]. now rewrite IH.
Qed.

Lemma rsplitDot_Some (s : string) :
  forall h t,
    rsplitDot s = Some (h, t) -> s = h ++ "." ++ t /\ dotless t = true.
Proof.
  induction s as [|c s IH]; cbn [rsplitDot]; intros h t; [discriminate|].
  destruct (rsplitDot s) as [[h' t']|] eqn:E.
  - intros H. inversion H; subst.
    destruct (IH h' t eq_refl) as [-> D]. split; [reflexivity | exact D].
  - destruct (Ascii.eqb c ".") eqn:C; [|discriminate].
    intros H. inversion H; subst. apply Ascii.eqb_eq in C. subst c.
    split; [reflexivity|].
    clear - E. induction t as [|x t IHt]; [reflexivity|].
    cbn [rsplitDot] in E. simpl.
    destruct (rsplitDot t) as [[h1 t1]|]; [discriminate|].
    destruct (Ascii.eqb x "."); [discriminate|]. now rewrite IHt.
Qed.

Lemma rsplitDot_None (s : string) :
  rsplitDot s = None -> dotless s = true.
Proof.
  induction s as [|x s IH]; [reflexivity|].
  cbn [rsplitDot]. simpl.
  destruct (rsplitDot s) as [[h1 t1]|]; [discriminate|].
  destruct (Ascii.eqb x "."); [discriminate|]. intros _. now rewrite IH.
Qed.

(** The three shapes of a path and of its destination path. *)
Lemma shapes (p : string) :
  (dotless p = true
   /\ destinationPathOf p = p ++ "-strip"
   /\ rsplitDot (destinationPathOf p) = None)
  \/ (exists t,
         dotless t = true /\ p = "." ++ t
         /\ destinationPathOf p = p ++ "-strip"
         /\ rsplitDot (destinationPathOf p) = Some ("", t ++ "-strip"))
  \/ (exists h t,
         h <> "" /\ dotless t = true /\ p = h ++ "." ++ t
         /\ destinationPathOf p = (h ++ "-strip") ++ "." ++ t
         /\ rsplitDot (destinationPathOf p) = Some (h ++ "-strip", t)).
Proof.
  unfold destinationPathOf, rpartition.
  destruct (rsplitDot p) as [[h t]|] eqn:E.
  - destruct (rsplitDot_Some p h t E) as [Hp Ht].
    destruct h as [|c h]; cbn [fst snd].
    + right; left. exists t. split; [exact Ht|]. split; [exact Hp|].
      split; [reflexivity|]. subst p.
      change (rsplitDot ("" ++ "." ++ (t ++ "-strip"))
              = Some ("", t ++ "-strip")).
      apply rsplitDot_split. now rewrite dotless_append, Ht.
    + right; right. exists (String c h), t.
      split; [discriminate|]. split; [exact Ht|]. split; [exact Hp|].
      assert (R : String c h ++ "-strip" ++ "." ++ t
                  = (String c h ++ "-strip") ++ "." ++ t)
        by now rewrite StrFacts.append_assoc.
      rewrite R. split; [reflexivity|]. now apply rsplitDot_split.
  - pose proof (rsplitDot_None p E) as D. cbn [fst snd].
    left. split; [exact D|]. split; [reflexivity|].
    apply rsplitDot_dotless. now rewrite dotless_append, D.
Qed.

End PathFacts.

Section DestinationPath.

Import Path.
Local Open Scope string_scope.

(** X7.  Where ["-strip"] goes: at the end of a path without a dot and of
    a path whose only dot is its first character; otherwise right before
    the last dot, whatever follows it, another directory of the path
    included. *)
Theorem X7_strip_goes_before_the_last_dot :
  (forall p : string,
      dotless p = true -> destinationPathOf p = p ++ "-strip")
  /\ (forall t : string,
         dotless t = true ->
         destinationPathOf ("." ++ t) = "." ++ t ++ "-strip")
  /\ (forall h t : string,
         h <> "" -> dotless t = true ->
         destinationPathOf (h ++ "." ++ t) = h ++ "-strip." ++ t).
Proof.
  split; [|split].
  - intros p D. unfold destinationPathOf, rpartition.
    now rewrite (PathFacts.rsplitDot_dotless p D).
  - intros t D. unfold destinationPathOf, rpartition.
    change (rsplitDot ("." ++ t)) with (rsplitDot ("" ++ "." ++ t)).
    rewrite (PathFacts.rsplitDot_split "" t D). reflexivity.
  - intros h t Hh D. unfold destinationPathOf, rpartition.
    rewrite (PathFacts.rsplitDot_split h t D). cbn [fst snd].
    destruct h as [|c h]; [now elim Hh|]. reflexivity.
Qed.

Lemma X7_strip_goes_before_the_last_dot_witness :
  destinationPathOf "README" = "README" ++ "-strip"
  /\ destinationPathOf ("." ++ "profile") = "." ++ "profile" ++ "-strip"
  /\ destinationPathOf ("pkg.d/tool" ++ "." ++ "py")
     = "pkg.d/tool" ++ "-strip." ++ "py"
  /\ destinationPathOf ("pkg" ++ "." ++ "d/tool")
     = "pkg" ++ "-strip." ++ "d/tool".
Proof.
  destruct X7_strip_goes_before_the_last_dot as (A & B & C).
  split; [apply A; reflexivity|].
  split; [apply B; reflexivity|].
  split; apply C; solve [discriminate | reflexivity].
Defined.

(** X8.  The destination path is six characters longer than the source
    path; it is never the source path, so no input is opened for writing
    as its own destination. *)
Theorem X8_destination_path_differs_from_source (p : string) :
  String.length (destinationPathOf p) = (String.length p + 6)%nat
  /\ destinationPathOf p <> p.
Proof.
  assert (L : String.length (destinationPathOf p)
              = (String.length p + 6)%nat).
  { destruct (PathFacts.shapes p)
      as [(_ & E & _) | [(t & _ & _ & E & _) | (h & t & _ & _ & P & E & _)]].
    - rewrite E, MoreStrFacts.length_append. reflexivity.
    - rewrite E, MoreStrFacts.length_append. reflexivity.
    - rewrite E, P. rewrite !MoreStrFacts.length_append. simpl.
      rewrite ?MoreStrFacts.length_append. simpl. lia. }
  split; [exact L|].
  intros E. rewrite E in L. lia.
Qed.

Lemma destinationPathOf_inj (p q : string) :
  destinationPathOf p = destinationPathOf q -> p = q.
Proof.
  intros E.
  destruct (PathFacts.shapes p)
    as [(_ & Ep & Rp)
       | [(t & _ & Pp & Ep & Rp) | (h & t & Hh & _ & Pp & Ep & Rp)]];
  destruct (PathFacts.shapes q)
    as [(_ & Eq & Rq)
       | [(t' & _ & Pq & Eq & Rq) | (h' & t' & Hh' & _ & Pq & Eq & Rq)]];
  rewrite E in Rp; rewrite Rq in Rp; try discriminate.
  - rewrite Ep, Eq in E. exact (PathFacts.append_inv_tail _ _ _ E).
  - rewrite Ep, Eq in E. exact (PathFacts.append_inv_tail _ _ _ E).
  - inversion Rp as [[H1 H2]]. destruct h' as [|c h']; [now elim Hh'|].
    discriminate.
  - inversion Rp as [[H1 H2]]. destruct h as [|c h]; [now elim Hh|].
    discriminate.
  - inversion Rp as [[H1 H2]].
    apply PathFacts.append_inv_tail in H1. subst. reflexivity.
Qed.

(** X9.  Two different source paths never get the same destination
    path. *)
Theorem X9_destination_path_is_injective (p q : string) :
  destinationPathOf p = destinationPathOf q -> p = q.
Proof.
  intros E. apply destinationPathOf_inj. exact E.
Qed.

Lemma X9_destination_path_is_injective_witness :
  "a.py" = "a.py".
Proof.
  apply (X9_destination_path_is_injective "a.py" "a.py"). reflexivity.
Defined.

End DestinationPath.

(* ------------------------------------------------------------------ *)
(** ** The main code *)

Section MainFacts.

Import Path.
Local Open Scope string_scope.

Variable args : Args.
Variable sourceOf : string -> option (list Token).

Lemma stripFile_sink (source : list Token) (dest : string) (st : State) :
  stripFile source "" (indent args) false = Normal st ->
  exists st',
    stripFile source dest (indent args) false = Normal st'
    /\ destination st' = dest ++ destination st.
Proof.
  intros H.
  pose proof (stripLoop_onSink (indentCharOf (indent args)) dest false
                source (initialState "")) as S.
  unfold stripFile in *. rewrite H in S. cbn [onSink] in S.
  unfold initialState in S; simpl in S.
  rewrite StrFacts.append_nil_r in S.
  eexists. split; [exact S | reflexivity].
Qed.



(** With [-o -] the loop adds the conversions to the standard output. *)
Lemma convertFiles_stdout (paths : list string) :
  forall closed w,
    output args = Some "-" ->
    Forall (convertsNormally args sourceOf) paths ->
    Main.convertFiles args sourceOf closed w paths
    = Main.mkResult
        (Main.mkWorld (Main.fileContents w)
           (Main.stdout w ++ conversionsOf args sourceOf paths))
        None.
Proof.
  induction paths as [|a rest IH]; intros closed w Ho Hall;
    cbn [Main.convertFiles conversionsOf].
  - rewrite StrFacts.append_nil_r. destruct w; reflexivity.
  - inversion Hall as [|x l (tokens & st & Hs & Hn) Hrest]; subst.
    rewrite Hs, Ho. simpl String.eqb. cbv iota.
    unfold Main.convertToStdout.
    destruct (stripFile_sink tokens (Main.stdout w) st Hn) as (st' & E & D).
    rewrite E. cbn [written].
    rewrite (IH closed _ Ho Hrest). simpl Main.stdout.
    simpl Main.fileContents.
    unfold conversionOf. rewrite Hs, Hn. cbn [written].
    rewrite D, StrFacts.append_assoc. reflexivity.
Qed.

(** X10.  With [-o -], when every input exists and converts normally, the
    run ends without error, writes no file, and adds to the standard
    output the conversions of the inputs in the order given, each as
    [stripFile] writes it on an empty destination. *)
Theorem X10_stdout_gets_the_conversions_in_order (w : Main.World) :
  output args = Some "-" ->
  Forall (convertsNormally args sourceOf) (files args) ->
  Main.main args sourceOf w
  = Main.mkResult
      (Main.mkWorld (Main.fileContents w)
         (Main.stdout w ++ conversionsOf args sourceOf (files args)))
      None.
Proof.
  intros Ho Hall. unfold Main.main. rewrite Ho. simpl String.eqb. cbv iota.
  apply convertFiles_stdout; assumption.
Qed.



End MainFacts.

Section MainWitnesses.

Local Open Scope string_scope.

Lemma runs_convert_normally_with_tabs :
  Forall (convertsNormally Runs.toStdout Runs.sourceOf) ["a.py"; "b.py"].
Proof.
  apply Forall_cons; [|apply Forall_cons; [|apply Forall_nil]].
  - exists Streams.docstringFirst. vm_compute. eexists. split; reflexivity.
  - exists Streams.stringAfterDedent. vm_compute. eexists.
    split; reflexivity.
Qed.

Lemma X10_stdout_gets_the_conversions_in_order_witness :
  Main.main Runs.toStdout Runs.sourceOf Runs.before
  = Main.mkResult
      (Main.mkWorld (Main.fileContents Runs.before)
         (Main.stdout Runs.before
          ++ conversionsOf Runs.toStdout Runs.sourceOf
               (files Runs.toStdout)))
      None.
Proof.
  apply (X10_stdout_gets_the_conversions_in_order
           Runs.toStdout Runs.sourceOf Runs.before).
  - reflexivity.
  - apply runs_convert_normally_with_tabs.
Defined.


End MainWitnesses.

(* ------------------------------------------------------------------ *)
(** ** The second pass *)

Section ContentOfAStream.

Local Open Scope string_scope.

Lemma textsOf_app (a b : list Token) :
  textsOf (a ++ b)%list = textsOf a ++ textsOf b.
Proof.
  induction a as [|t a IH]; simpl; [reflexivity|].
  now rewrite IH, StrFacts.append_assoc.
Qed.

Lemma contentTokens_app (a b : list Token) :
  forall prev,
    contentTokens prev (a ++ b)%list
    = (contentTokens prev a
       ++ contentTokens (previousKindAfter prev a) b)%list.
Proof.
  induction a as [|t a IH]; intros prev; [reflexivity|].
  cbn [app contentTokens previousKindAfter].
  destruct (isContent prev (tokenType t)) eqn:C.
  - assert (K : keepToken prev (tokenType t) = true).
    { unfold isContent in C.
      destruct (keepToken prev (tokenType t)); [reflexivity|discriminate]. }
    rewrite K. cbn [app]. now rewrite IH.
  - apply IH.
Qed.

(** The value of [previousTokenType] after a normal run. *)
Lemma stripLoop_previous (indentChar : string) (tokens : list Token) :
  forall st st',
    stripLoop indentChar false st tokens = Normal st' ->
    previousTokenType st' = previousKindAfter (previousTokenType st) tokens.
Proof.
  induction tokens as [|t tokens IH];
    cbn [stripLoop previousKindAfter]; intros st st'.
  - intros H. now inversion H.
  - destruct (processToken indentChar false st t) as [st1|e st1] eqn:E;
      [|discriminate].
    intros H. rewrite (IH _ _ H), (step_previous _ _ _ _ E). reflexivity.
Qed.

Lemma squeezedLength_append (a b : string) :
  squeezedLength (a ++ b) = (squeezedLength a + squeezedLength b)%nat.
Proof.
  unfold squeezedLength.
  now rewrite MoreStrFacts.squeeze_append, MoreStrFacts.length_append.
Qed.

(** The content tokens are some of the tokens. *)
Lemma contentTokens_le (tokens : list Token) :
  forall prev,
    (squeezedLength (textsOf (contentTokens prev tokens))
     <= squeezedLength (textsOf tokens))%nat.
Proof.
  induction tokens as [|t tokens IH]; intros prev;
    cbn [contentTokens textsOf]; [lia|].
  rewrite squeezedLength_append.
  destruct (isContent prev (tokenType t)).
  - cbn [textsOf]. rewrite squeezedLength_append.
    specialize (IH (tokenType t)). lia.
  - specialize
      (IH (if keepToken prev (tokenType t) then tokenType t else prev)).
    lia.
Qed.

(** Whatever the outcome, what has been added to the destination is made
    of texts of content tokens, blanks apart. *)
Lemma written_le (indent : Z) (tokens : list Token) (st : State) :
  (squeezedLength
     (written (stripLoop (indentCharOf indent) false st tokens))
   <= squeezedLength (destination st)
      + squeezedLength
          (textsOf (contentTokens (previousTokenType st) tokens)))%nat.
Proof.
  destruct (stripLoop (indentCharOf indent) false st tokens)
    as [st'|e st'] eqn:E; cbn [written].
  - unfold squeezedLength at 1.
    rewrite (stripLoop_texts indent tokens st st' E).
    fold (squeezedLength
            (destination st
             ++ textsOf (contentTokens (previousTokenType st) tokens))).
    rewrite squeezedLength_append. lia.
  - destruct (stripLoop_raised _ _ _ _ _ E)
      as (pre & t & rest & st0 & S & R & P).
    destruct (step_raised _ _ _ _ _ P) as (_ & _ & _ & Hst).
    subst st' tokens. cbn [St.setIndentLevel destination].
    unfold squeezedLength at 1.
    rewrite (stripLoop_texts indent pre st st0 R).
    fold (squeezedLength
            (destination st
             ++ textsOf (contentTokens (previousTokenType st) pre))).
    rewrite squeezedLength_append, contentTokens_app, textsOf_app,
      squeezedLength_append.
    lia.
Qed.

End ContentOfAStream.

Section SecondPass.

Local Open Scope string_scope.

(** C3, as amended.  The transformation is not idempotent.  Let a stream
    be a token stream of the text [out1]: its token texts make up [out1],
    blanks apart.  If a STRING token of it is met while the previous kind
    is INDENT (at the head of the stream or right after an INDENT, as the
    second of two string statements is once the first pass has removed
    the first), the pass over that stream skips the token, and what it
    writes is not [out1]. *)
Theorem C3_second_pass_strips_string_at_suite_start
    (pre rest : list Token) (t : Token) (out1 dest : string) (indent : Z) :
  tokenType t = STRING ->
  previousKindAfter INDENT pre = INDENT ->
  Blank.squeeze (tokenText t) <> "" ->
  Blank.squeeze (textsOf (pre ++ t :: rest)%list) = Blank.squeeze out1 ->
  stripFile (pre ++ t :: rest)%list dest indent false
  = stripFile (pre ++ rest)%list dest indent false
  /\ written (stripFile (pre ++ t :: rest)%list "" indent false) <> out1.
Proof.
  intros Ht Hp Hn Hout. split.
  - unfold stripFile. rewrite !stripLoop_app.
    destruct (stripLoop (indentCharOf indent) false (initialState dest) pre)
      as [st0|e st0] eqn:E; [|reflexivity].
    cbn [stripLoop].
    rewrite step_dropped; [reflexivity|].
    rewrite (stripLoop_previous _ _ _ _ E). cbn [initialState
      previousTokenType]. rewrite Hp, Ht. reflexivity.
  - intros Eq.
    pose proof (written_le indent (pre ++ t :: rest)%list (initialState ""))
      as L.
    fold (stripFile (pre ++ t :: rest)%list "" indent false) in L.
    rewrite Eq in L. cbn [initialState destination previousTokenType] in L.
    rewrite contentTokens_app, Hp in L.
    cbn [contentTokens] in L.
    assert (C : isContent INDENT (tokenType t) = false)
      by (rewrite Ht; reflexivity).
    assert (K : keepToken INDENT (tokenType t) = false)
      by (rewrite Ht; reflexivity).
    rewrite C, K, textsOf_app, squeezedLength_append in L.
    assert (T : squeezedLength out1
                = (squeezedLength (textsOf pre)
                   + (squeezedLength (tokenText t)
                      + squeezedLength (textsOf rest)))%nat).
    { unfold squeezedLength at 1. rewrite <- Hout.
      fold (squeezedLength (textsOf (pre ++ t :: rest)%list)).
      rewrite textsOf_app, squeezedLength_append. cbn [textsOf].
      now rewrite squeezedLength_append. }
    pose proof (contentTokens_le pre INDENT) as L1.
    pose proof (contentTokens_le rest INDENT) as L2.
    assert (P : (0 < squeezedLength (tokenText t))%nat).
    { unfold squeezedLength.
      destruct (Blank.squeeze (tokenText t)); [now elim Hn | simpl; lia]. }
    change (squeezedLength "") with O in L. lia.
Qed.

Lemma C3_second_pass_strips_string_at_suite_start_witness :
  stripFile Streams.twoStringsRetokenized "" 0 false
  = stripFile
      (firstn 7 Streams.twoStringsRetokenized
       ++ skipn 8 Streams.twoStringsRetokenized)%list "" 0 false
  /\ written (stripFile Streams.twoStringsRetokenized "" 0 false)
     <> Streams.twoStringsPass1.
Proof.
  apply (C3_second_pass_strips_string_at_suite_start
           (firstn 7 Streams.twoStringsRetokenized)
           (skipn 8 Streams.twoStringsRetokenized)
           (tok STRING (PyStr.quoted "b"))
           Streams.twoStringsPass1 "" 0).
  - reflexivity.
  - reflexivity.
  - discriminate.
  - reflexivity.
Defined.

End SecondPass.

(* ------------------------------------------------------------------ *)
(** ** How [stripFile] can end *)

Section WaysToFail.

Local Open Scope string_scope.

(** On a closed destination the loop runs up to the first content token
    and raises [ValueError] there, with nothing written. *)
Lemma stripLoopClosed_cases (tokens : list Token) :
  forall st,
    didNewLine st = false ->
    match stripLoopClosed st tokens with
    | ClosedNormal st' =>
        noContent (previousTokenType st) tokens = true
        /\ destination st' = destination st
    | ClosedRaised e st' =>
        e = ValueError
        /\ noContent (previousTokenType st) tokens = false
        /\ destination st' = destination st
    end.
Proof.
  induction tokens as [|t tokens IH];
    cbn [stripLoopClosed noContent]; intros st Hd; [auto|].
  destruct (isContent (previousTokenType st) (tokenType t)) eqn:C.
  - revert C. clear.
    destruct st as [prev lvl did need dst err];
    destruct t as [ty txt ps pe ln].
    unfold processTokenClosed, isContent, keepToken; simpl.
    destruct ty, prev; simpl; intros C; try discriminate;
      destruct need; auto.
  - assert (S : exists st1,
               processTokenClosed st t = ClosedNormal st1
               /\ didNewLine st1 = false
               /\ destination st1 = destination st
               /\ previousTokenType st1
                  = if keepToken (previousTokenType st) (tokenType t)
                    then tokenType t else previousTokenType st).
    { revert Hd C. clear.
      destruct st as [prev lvl did need dst err];
      destruct t as [ty txt ps pe ln].
      unfold processTokenClosed, isContent, keepToken; simpl.
      intros -> C.
      destruct ty, prev; simpl in *; try discriminate;
        eexists; (split; [reflexivity|]); simpl; auto. }
    destruct S as (st1 & E & Hd1 & D1 & P1).
    rewrite E. rewrite <- P1. specialize (IH st1 Hd1).
    destruct (stripLoopClosed st1 tokens) as [st'|e st'].
    + destruct IH as [N D]. split; [exact N | congruence].
    + destruct IH as (He & N & D). split; [exact He|].
      split; [exact N | congruence].
Qed.

(** X2.  With [debug] off, on a destination that is open and takes every
    write or that is closed, [stripFile] fails in three ways and no other.
    On an open destination: the [NameError] of line 87, at an INDENT token
    before which the loop ran normally and left [didNewLine] true, with
    the text written so far left in the destination.  On a closed
    destination: [ValueError] at the first content token, with nothing
    written.  On either: the exception of the tokenizer, once every token
    it yielded has been processed. *)
Theorem X2_the_three_ways_stripFile_fails
    (source : TokenStream) (closed : bool) (dest : string) (indent : Z)
    (e : RunError) (st : State) :
  stripFileRun source closed dest indent = RunRaised e st ->
  (closed = false
   /\ e = LoopError (NameError "mod")
   /\ exists pre t rest st0,
        yielded source = (pre ++ t :: rest)%list
        /\ tokenType t = INDENT
        /\ stripFile pre dest indent false = Normal st0
        /\ didNewLine st0 = true
        /\ destination st = destination st0
        /\ indentLevel st = indentLevel st0 + 1)
  \/ (closed = true
      /\ e = WriteError
      /\ noContent INDENT (yielded source) = false
      /\ destination st = dest)
  \/ (exists name,
         tokenizerRaises source = Some name
         /\ e = TokenizerError name
         /\ if closed
            then stripFileClosed (yielded source) dest = ClosedNormal st
            else stripFile (yielded source) dest indent false = Normal st).
Proof.
  unfold stripFileRun. destruct closed.
  - pose proof (stripLoopClosed_cases (yielded source) (initialState dest)
                  eq_refl) as Cl.
    unfold stripFileClosed.
    destruct (stripLoopClosed (initialState dest) (yielded source))
      as [st'|e' st'].
    + destruct (tokenizerRaises source) as [name|]; [|discriminate].
      intros H. inversion H; subst. right; right.
      exists name. auto.
    + destruct Cl as (He & N & D). subst e'. cbn [runErrorOf].
      intros H. inversion H; subst. right; left. auto.
  - destruct (stripFile (yielded source) dest indent false)
      as [st'|e' st'] eqn:E.
    + destruct (tokenizerRaises source) as [name|]; [|discriminate].
      intros H. inversion H; subst. right; right.
      exists name. auto.
    + intros H. inversion H; subst. left.
      unfold stripFile in E.
      destruct (stripLoop_raised _ _ _ _ _ E)
        as (pre & t & rest & st0 & S & R & P).
      destruct (step_raised _ _ _ _ _ P) as (He & Ht & Hd & Hst).
      split; [reflexivity|]. split; [now rewrite He|].
      exists pre, t, rest, st0. subst st. repeat split; assumption.
Qed.

Lemma X2_the_three_ways_stripFile_fails_witness :
  (false = false
   /\ LoopError (NameError "mod") = LoopError (NameError "mod")
   /\ exists pre t rest st0,
        yielded (mkTokenStream Streams.indentAfterOneTokenLine None)
        = (pre ++ t :: rest)%list
        /\ tokenType t = INDENT
        /\ stripFile pre "" 0 false = Normal st0
        /\ didNewLine st0 = true
        /\ destination
             (mkState NEWLINE 1 true true ("a" ++ PyStr.newline ++ "x") "")
           = destination st0
        /\ indentLevel
             (mkState NEWLINE 1 true true ("a" ++ PyStr.newline ++ "x") "")
           = indentLevel st0 + 1)
  \/ (false = true
      /\ LoopError (NameError "mod") = WriteError
      /\ noContent INDENT
           (yielded (mkTokenStream Streams.indentAfterOneTokenLine None))
         = false
      /\ destination
           (mkState NEWLINE 1 true true ("a" ++ PyStr.newline ++ "x") "")
         = "")
  \/ (exists name,
         tokenizerRaises
           (mkTokenStream Streams.indentAfterOneTokenLine None)
         = Some name
         /\ LoopError (NameError "mod") = TokenizerError name
         /\ stripFile
              (yielded (mkTokenStream Streams.indentAfterOneTokenLine None))
              "" 0 false
            = Normal
                (mkState NEWLINE 1 true true
                   ("a" ++ PyStr.newline ++ "x") "")).
Proof.
  apply (X2_the_three_ways_stripFile_fails
           (mkTokenStream Streams.indentAfterOneTokenLine None)
           false "" 0 (LoopError (NameError "mod"))
           (mkState NEWLINE 1 true true ("a" ++ PyStr.newline ++ "x") "")).
  reflexivity.
Defined.

(** X3.  On a destination that is open and takes every write, and a
    stream that the tokenizer yields to its end without raising,
    [stripFile] ends normally whenever every INDENT of the stream comes
    before any content token or after a content token that directly
    followed another content token, as the [:] that ends a block header
    follows the rest of the header. *)
Theorem X3_whole_stream_with_two_token_headers_ends_normally
    (source : TokenStream) (dest : string) (indent : Z) :
  tokenizerRaises source = None ->
  headersOk INDENT false (yielded source) = true ->
  exists st,
    stripFileRun source false dest indent = RunNormal st
    /\ stripFile (yielded source) dest indent false = Normal st.
Proof.
  intros Ht H.
  destruct (stripLoop_headersOk (indentCharOf indent) (yielded source)
              (initialState dest) false) as (st & E).
  - split; simpl; intros; discriminate.
  - exact H.
  - exists st. unfold stripFileRun, stripFile. rewrite E, Ht. auto.
Qed.

Lemma X3_whole_stream_with_two_token_headers_ends_normally_witness :
  exists st,
    stripFileRun (mkTokenStream Streams.stringAfterDedent None) false "" 0
    = RunNormal st
    /\ stripFile
         (yielded (mkTokenStream Streams.stringAfterDedent None)) "" 0 false
       = Normal st.
Proof.
  apply (X3_whole_stream_with_two_token_headers_ends_normally
           (mkTokenStream Streams.stringAfterDedent None) "" 0);
    reflexivity.
Defined.

End WaysToFail.

(* ------------------------------------------------------------------ *)
(** ** The main code over the files it reads and writes *)

Section ProgramFacts.

Local Open Scope string_scope.

Variable args : Args.
Variable tokenize : string -> TokenStream.
Variable writable : string -> bool.









End ProgramFacts.

Section ProgramWitnesses.

Local Open Scope string_scope.



End ProgramWitnesses.
